(** * cuDNN layer-norm executor: graph cache and shape canonicalisation

    A shallow embedding of [thunder/executors/cudnn_layernormex.py].

    Tensors are represented by their metadata (shape, strides, dtype,
    device) and a tag for the buffer behind them; the arithmetic of the
    normalisation itself lives in the accelerator and is not modelled.
    Python exceptions are values of [exn]; functions that touch the graph
    cache or the accelerator run in a state-and-exception monad [M]. *)

From Stdlib Require Import ZArith List String Bool Lia Arith.
Import ListNotations.
Open Scope string_scope.
Open Scope Z_scope.
Open Scope list_scope.

(** ** Exceptions and results *)

Inductive exn : Type :=
| AttributeError (attr : string)   (* [obj.attr] on an object without [attr] *)
| NameError (name : string)        (* global name not bound *)
| TypeError (msg : string)         (* call with a wrong number of arguments *)
| CudnnError (what : string).      (* raised by the accelerator library *)

Inductive result (A : Type) : Type :=
| Ok (a : A)
| Raise (e : exn).
Arguments Ok {A} a.
Arguments Raise {A} e.

Definition rbind {A B} (r : result A) (k : A -> result B) : result B :=
  match r with
  | Ok a => k a
  | Raise e => Raise e
  end.

Definition is_ok {A} (r : result A) : bool :=
  match r with Ok _ => true | Raise _ => false end.

(** ** Tensors as the executor sees them *)

Inductive torch_dtype : Type :=
| float16 | bfloat16 | float32 | float64
| uint8 | int8 | int32 | int64 | bool8.

Inductive device_type : Type := cpu | cuda.

Record torch_device : Type := mk_device {
  dev_type : device_type;
  index : option Z              (* [device.index]; [None] when unset *)
}.

(** A Python float, kept as its IEEE-754 bit pattern: the executor only
    forwards it. *)
Definition pyfloat : Type := Z.

(** What backs a tensor: a caller-owned buffer, or one of the buffers the
    executor creates with [torch.zeros_like], [torch.full], [torch.empty]. *)
Inductive contents : Type :=
| Buffer (id : Z)
| Zeros
| Full (fill_value : pyfloat)
| Uninitialised.

Record Tensor : Type := mk_tensor {
  t_shape : list Z;
  t_stride : list Z;
  t_dtype : torch_dtype;
  t_device : torch_device;
  t_data : contents
}.

(** [@dataclass(frozen=True) class CudnnTensorAttributes] *)
Record CudnnTensorAttributes : Type := mk_attrs {
  size : list Z;
  stride : list Z;
  dtype : torch_dtype;
  device_index : option Z
}.

(** ** numpy and slicing helpers *)

(** Two's-complement reduction to a signed 64-bit integer. *)
Definition int64_wrap (z : Z) : Z := (z + 2 ^ 63) mod 2 ^ 64 - 2 ^ 63.

(** [np.prod] over a sequence of integers that are all int64 values, as
    tensor extents are: the multiplication is carried out in [int64] and
    wraps silently.  (On the empty sequence numpy answers the float [1.0],
    which Python compares and hashes equal to the integer [1]; with
    [dtype=int] it answers the integer.  A sequence with an element
    outside int64 makes numpy leave int64; the theorems below that depend
    on the value of the product say where their extents lie.) *)
Definition np_prod (l : list Z) : Z :=
  fold_left (fun acc x => int64_wrap (acc * x)) l 1.

(** The mathematical product of the extents, without any wrap-around. *)
Definition extent_product (l : list Z) : Z := fold_right Z.mul 1 l.

(** Extents that are int64 values. *)
Definition int64_values (l : list Z) : Prop :=
  Forall (fun e => - 2 ^ 63 <= e < 2 ^ 63) l.

(** [l[:stop]] for a Python sequence: a negative [stop] counts from the
    end, and the bound is clamped to the sequence. *)
Definition slice_to {A} (l : list A) (stop : Z) : list A :=
  let n := Z.of_nat (List.length l) in
  let s := if stop <? 0 then Z.max 0 (stop + n) else Z.min stop n in
  firstn (Z.to_nat s) l.

(** Row-major strides of a freshly allocated tensor of the given shape. *)
Fixpoint contiguous_stride (shape : list Z) : list Z :=
  match shape with
  | [] => []
  | _ :: rest =>
      fold_right (fun e p => Z.max e 1 * p) 1 rest :: contiguous_stride rest
  end.

(** Attribute access on a possibly-[None] operand. *)
Definition getattr {A} (o : option Tensor) (attr : string) (f : Tensor -> A)
  : result A :=
  match o with
  | Some t => Ok (f t)
  | None => Raise (AttributeError attr)
  end.

(** ** Shape canonicaliser *)

Definition _transform_layer_norm_inputs
    (a : Tensor) (normalized_shape : list Z) (weight bias : option Tensor)
  : result (CudnnTensorAttributes * CudnnTensorAttributes * CudnnTensorAttributes) :=
  let elements_to_normalize := np_prod normalized_shape in
  let batch_size :=
    np_prod (slice_to (t_shape a) (- Z.of_nat (List.length normalized_shape))) in
  (* Assume strides to be NCHW contiguous *)
  let assumed_stride := [elements_to_normalize; 1; 1; 1] in
  let a_4d :=
    mk_attrs [batch_size; elements_to_normalize; 1; 1] assumed_stride
             (t_dtype a) (index (t_device a)) in
  rbind (getattr weight "dtype" t_dtype) (fun weight_dtype =>
  rbind (getattr weight "device" (fun t => index (t_device t))) (fun weight_index =>
  let weight_4d :=
    mk_attrs [1; elements_to_normalize; 1; 1] assumed_stride
             weight_dtype weight_index in
  rbind (getattr bias "dtype" t_dtype) (fun bias_dtype =>
  rbind (getattr bias "device" (fun t => index (t_device t))) (fun bias_index =>
  let bias_4d :=
    mk_attrs [1; elements_to_normalize; 1; 1] assumed_stride
             bias_dtype bias_index in
  Ok (a_4d, weight_4d, bias_4d))))).

(** ** Structural equality of descriptors

    A frozen dataclass compares and hashes field by field, so two
    descriptors built from different tensors are the same cache key as soon
    as their four fields agree. *)

Definition torch_dtype_eqb (x y : torch_dtype) : bool :=
  match x, y with
  | float16, float16 | bfloat16, bfloat16 | float32, float32
  | float64, float64 | uint8, uint8 | int8, int8 | int32, int32
  | int64, int64 | bool8, bool8 => true
  | _, _ => false
  end.

Definition option_Z_eqb (x y : option Z) : bool :=
  match x, y with
  | Some i, Some j => i =? j
  | None, None => true
  | _, _ => false
  end.

Fixpoint list_eqb {A} (eqb : A -> A -> bool) (l1 l2 : list A) : bool :=
  match l1, l2 with
  | [], [] => true
  | x :: l1', y :: l2' => eqb x y && list_eqb eqb l1' l2'
  | _, _ => false
  end.

Definition attrs_eqb (x y : CudnnTensorAttributes) : bool :=
  list_eqb Z.eqb (size x) (size y)
  && list_eqb Z.eqb (stride x) (stride y)
  && torch_dtype_eqb (dtype x) (dtype y)
  && option_Z_eqb (device_index x) (device_index y).

(** The key [lru_cache] derives from a call: its positional arguments. *)
Definition key : Type := list CudnnTensorAttributes.

Definition key_eqb : key -> key -> bool := list_eqb attrs_eqb.

(** ** The cuDNN graph objects the executor handles *)

Inductive cudnn_data_type : Type :=
| FLOAT | HALF | BFLOAT16 | DOUBLE | INT8 | UINT8 | INT32 | INT64 | BOOLEAN.

(** A symbolic tensor of a [cudnn.pygraph].  Handles are Python objects and
    are told apart by identity: [gt_graph] is the graph that owns the
    handle and [gt_name] its name inside that graph. *)
Record graph_tensor : Type := mk_graph_tensor {
  gt_graph : nat;
  gt_name : string;
  gt_dim : list Z;
  gt_stride : list Z;
  gt_data_type : cudnn_data_type;
  gt_is_pass_by_value : bool;
  gt_is_output : bool
}.

Record pygraph : Type := mk_pygraph {
  graph_id : nat;               (* identity of the graph object *)
  workspace_size : Z            (* [graph.get_workspace_size()] *)
}.

(** The tuple [(input, scale, bias, epsilon, Y, graph)] the builder returns
    and the cache stores. *)
Record graph_entry : Type := mk_entry {
  e_input : graph_tensor;
  e_scale : graph_tensor;
  e_bias : graph_tensor;
  e_epsilon : graph_tensor;
  e_Y : graph_tensor;
  e_graph : pygraph
}.

(** Arguments a caller may hand to the decorated graph function. *)
Inductive pyarg : Type :=
| ArgTensor (t : Tensor)
| ArgAttrs (d : CudnnTensorAttributes).

(** A module-level name: absent from the module's globals, or bound. *)
Inductive binding (A : Type) : Type :=
| Unbound
| Bound (v : option A).          (* [Bound None] is the Python [None] *)
Arguments Unbound {A}.
Arguments Bound {A} v.

(** The imported [cudnn] module object. *)
Inductive cudnn_module : Type := CudnnModule.

Fixpoint map_result {A B} (f : A -> result B) (l : list A) : result (list B) :=
  match l with
  | [] => Ok []
  | x :: l' =>
      rbind (f x) (fun y => rbind (map_result f l') (fun ys => Ok (y :: ys)))
  end.

(** ** The LRU store, most recently used entry first *)

Fixpoint cache_get {V} (k : key) (c : list (key * V)) : option V :=
  match c with
  | [] => None
  | (k', v) :: c' => if key_eqb k k' then Some v else cache_get k c'
  end.

Fixpoint cache_remove {V} (k : key) (c : list (key * V)) : list (key * V) :=
  match c with
  | [] => []
  | (k', v) :: c' =>
      if key_eqb k k' then cache_remove k c' else (k', v) :: cache_remove k c'
  end.

Definition cache_keys {V} (c : list (key * V)) : list key := map fst c.

(** A hit moves the entry to the most-recently-used end of the queue. *)
Definition cache_touch {V} (k : key) (v : V) (c : list (key * V))
  : list (key * V) :=
  (k, v) :: cache_remove k c.

(** Storing the result of a miss: nothing to do when the key is already
    there; otherwise the entry is linked in as most recently used, and
    when the cache is full the oldest link is the one given up. *)
Definition cache_store {V} (maxsize : nat) (k : key) (v : V)
    (c : list (key * V)) : list (key * V) :=
  match cache_get k c with
  | Some _ => c
  | None => firstn maxsize ((k, v) :: c)
  end.

(** Recency order of the keys after a call on [k] that returned. *)
Definition recency_touch (k : key) (ks : list key) : list key :=
  k :: filter (fun k' => negb (key_eqb k k')) ks.

(** ** The accelerator and the libraries around the module

    What the module imports and calls but does not define. *)
Record Accelerator : Type := mk_accelerator {
  (** Transient state of the device and of the cuDNN library. *)
  device_state : Type;
  (** [thunder.executors.cudnnex.torch_to_cudnn_dtype]. *)
  torch_to_cudnn_dtype : torch_dtype -> result cudnn_data_type;
  (** The cuDNN calls that put the graph together and build it
      ([graph.tensor], [graph.layernorm], [graph.build([cudnn.heur_mode.A])])
      on the graph described by its five tensors: the library accepts it and
      reports a workspace size, or raises; either way the device state may
      move on. *)
  cudnn_graph_build :
    graph_tensor -> graph_tensor -> graph_tensor -> graph_tensor ->
    graph_tensor -> device_state -> result Z * device_state;
  (** [graph.execute(bindings, workspace)]. *)
  cudnn_graph_execute :
    pygraph -> list (graph_tensor * option Tensor) -> Tensor ->
    device_state -> result unit * device_state;
  (** Strides [torch.zeros_like] picks for its result (memory format
      [preserve_format]). *)
  preserve_format_stride : Tensor -> list Z;
  (** The answer of [cudnn_available()] when the module is imported. *)
  cudnn_available : bool
}.

(** *** A reference accelerator, for running the model on concrete calls

    It supports every dtype, refuses graphs with a non-positive extent,
    needs no workspace and counts the library calls made on the device. *)

Definition reference_dtype (d : torch_dtype) : result cudnn_data_type :=
  Ok match d with
     | float16 => HALF | bfloat16 => BFLOAT16 | float32 => FLOAT
     | float64 => DOUBLE | uint8 => UINT8 | int8 => INT8
     | int32 => INT32 | int64 => INT64 | bool8 => BOOLEAN
     end.

Definition reference_build (input scale bias epsilon Y : graph_tensor)
    (d : nat) : result Z * nat :=
  if forallb (fun e => 0 <? e) (gt_dim input)
  then (Ok 0, S d)
  else (Raise (CudnnError "graph not supported"), S d).

(** The same library when it also takes zero-sized graphs. *)
Definition lenient_build (input scale bias epsilon Y : graph_tensor)
    (d : nat) : result Z * nat :=
  (Ok 0, S d).

Definition reference_execute (g : pygraph)
    (variant_pack : list (graph_tensor * option Tensor)) (workspace : Tensor)
    (d : nat) : result unit * nat :=
  (Ok tt, S d).

Definition reference_accelerator : Accelerator :=
  mk_accelerator nat reference_dtype reference_build reference_execute
                 t_stride true.

Definition lenient_accelerator : Accelerator :=
  mk_accelerator nat reference_dtype lenient_build reference_execute
                 t_stride true.

(** A host on which the cuDNN library cannot be imported. *)
Definition no_cudnn : Accelerator :=
  mk_accelerator nat reference_dtype reference_build reference_execute
                 t_stride false.

(** A device on which every execution fails. *)
Definition failing_execute (g : pygraph)
    (variant_pack : list (graph_tensor * option Tensor)) (workspace : Tensor)
    (d : nat) : result unit * nat :=
  (Raise (CudnnError "execution failed"), S d).

Definition faulty_accelerator : Accelerator :=
  mk_accelerator nat reference_dtype reference_build failing_execute
                 t_stride true.

(** A dtype table that knows the floating-point types only. *)
Definition float_only_dtype (d : torch_dtype) : result cudnn_data_type :=
  match d with
  | float16 => Ok HALF
  | bfloat16 => Ok BFLOAT16
  | float32 => Ok FLOAT
  | _ => Raise (CudnnError "unsupported dtype")
  end.

Definition float_only_accelerator : Accelerator :=
  mk_accelerator nat float_only_dtype reference_build reference_execute
                 t_stride true.

(** *** Concrete calls *)

Definition cuda0 : torch_device := mk_device cuda (Some 0).
Definition cuda1 : torch_device := mk_device cuda (Some 1).

(** Input of shape (8, 16, 64) with weight and bias of shape (64,). *)
Definition example_input : Tensor :=
  mk_tensor [8; 16; 64] [1024; 64; 1] float32 cuda0 (Buffer 1).
Definition example_weight : Tensor :=
  mk_tensor [64] [1] float32 cuda0 (Buffer 2).
Definition example_bias : Tensor :=
  mk_tensor [64] [1] float32 cuda0 (Buffer 3).

(** Other tensors of the same shape, dtype and device: different buffers,
    and an input laid out with other strides. *)
Definition other_input : Tensor :=
  mk_tensor [8; 16; 64] [64; 512; 1] float32 cuda0 (Buffer 11).
Definition other_weight : Tensor :=
  mk_tensor [64] [1] float32 cuda0 (Buffer 12).
Definition other_bias : Tensor :=
  mk_tensor [64] [1] float32 cuda0 (Buffer 13).

(** The same operands on the second GPU. *)
Definition cuda1_input : Tensor :=
  mk_tensor [8; 16; 64] [1024; 64; 1] float32 cuda1 (Buffer 21).
Definition cuda1_weight : Tensor :=
  mk_tensor [64] [1] float32 cuda1 (Buffer 22).
Definition cuda1_bias : Tensor :=
  mk_tensor [64] [1] float32 cuda1 (Buffer 23).

(** An input with an empty normalised dimension: shape (4, 0). *)
Definition empty_input : Tensor :=
  mk_tensor [4; 0] [1; 1] float32 cuda0 (Buffer 31).
Definition empty_weight : Tensor :=
  mk_tensor [0] [1] float32 cuda0 (Buffer 32).
Definition empty_bias : Tensor :=
  mk_tensor [0] [1] float32 cuda0 (Buffer 33).

(** An input with no rows: shape (0, 64). *)
Definition empty_batch_input : Tensor :=
  mk_tensor [0; 64] [64; 1] float32 cuda0 (Buffer 34).

(** A broadcast view whose normalised extents multiply to 2^64:
    shape (4, 2^32, 2^32), every stride 0. *)
Definition wide_input : Tensor :=
  mk_tensor [4; 4294967296; 4294967296] [0; 0; 0] float32 cuda0 (Buffer 35).

(** The descriptors these operands canonicalise to (normalised shape
    (64,), and (0,) for the empty input). *)
Definition example_a_4d : CudnnTensorAttributes :=
  mk_attrs [128; 64; 1; 1] [64; 1; 1; 1] float32 (Some 0).
Definition example_weight_4d : CudnnTensorAttributes :=
  mk_attrs [1; 64; 1; 1] [64; 1; 1; 1] float32 (Some 0).
Definition example_bias_4d : CudnnTensorAttributes :=
  mk_attrs [1; 64; 1; 1] [64; 1; 1; 1] float32 (Some 0).
Definition example_key : key :=
  [example_a_4d; example_weight_4d; example_bias_4d].


Definition empty_a_4d : CudnnTensorAttributes :=
  mk_attrs [4; 0; 1; 1] [0; 1; 1; 1] float32 (Some 0).
Definition empty_weight_4d : CudnnTensorAttributes :=
  mk_attrs [1; 0; 1; 1] [0; 1; 1; 1] float32 (Some 0).
Definition empty_bias_4d : CudnnTensorAttributes :=
  mk_attrs [1; 0; 1; 1] [0; 1; 1; 1] float32 (Some 0).

(** The key of an input with [n] rows of 64 elements, and the keys for
    1, 2, ..., [n] rows. *)
Definition batch_key (n : Z) : key :=
  [mk_attrs [n; 64; 1; 1] [64; 1; 1; 1] float32 (Some 0);
   example_weight_4d; example_bias_4d].

Definition batch_keys (n : nat) : list key :=
  map (fun i => batch_key (Z.of_nat i)) (seq 1 n).

(** The floats [1e-5] and [1e-6]. *)
Definition eps_1e_5 : pyfloat := 4532020583610935537.
Definition eps_1e_6 : pyfloat := 4517329193108106637.

Section Executor.

Variable acc : Accelerator.

(** The module binds the name [cudnn] only inside
    [if cudnn_available(): ... import cudnn]. *)
Definition cudnn : binding cudnn_module :=
  if cudnn_available acc then Bound (Some CudnnModule) else Unbound.

(** *** Program state

    Besides the store of the [lru_cache] and the state of the device, the
    state keeps two logs that the program itself never reads: the
    invocations of the graph builder and the executions handed to cuDNN. *)

Record state : Type := mk_state {
  cache : list (key * graph_entry);   (* store of the [lru_cache] *)
  builder_calls : list key;           (* invocations of the graph builder, newest first *)
  executions : list (pygraph * list (graph_tensor * option Tensor) * Tensor);
  device : device_state acc;
  current_device : Z                  (* [torch.cuda.current_device()] *)
}.

Definition initial_state (d : device_state acc) (cur : Z) : state :=
  mk_state [] [] [] d cur.

Definition set_cache (c : list (key * graph_entry)) (s : state) : state :=
  mk_state c (builder_calls s) (executions s) (device s) (current_device s).

(** State-and-exception monad: what a raising call changed stays changed. *)
Definition M (A : Type) : Type := state -> result A * state.

Definition ret {A} (a : A) : M A := fun s => (Ok a, s).

Definition raise {A} (e : exn) : M A := fun s => (Raise e, s).

Definition bind {A B} (m : M A) (k : A -> M B) : M B :=
  fun s =>
    match m s with
    | (Ok a, s') => k a s'
    | (Raise e, s') => (Raise e, s')
    end.

Definition lift {A} (r : result A) : M A := fun s => (r, s).

(** [try: body  except: handler] with a bare [except]. *)
Definition try_except {A} (body : M A) (handler : M A) : M A :=
  fun s =>
    match body s with
    | (Ok a, s') => (Ok a, s')
    | (Raise _, s') => handler s'
    end.

Notation "x <- m ;; k" := (bind m (fun x => k))
  (at level 61, m at next level, right associativity).

(** Reading a module-level name. *)
Definition load_global {A} (name : string) (b : binding A) : M (option A) :=
  match b with
  | Unbound => raise (NameError name)
  | Bound v => ret v
  end.

(** *** [functools.lru_cache(maxsize)] *)

(** First half of a call: look the key up; a hit refreshes its recency. *)
Definition lru_lookup (k : key) : M (option graph_entry) :=
  fun s =>
    match cache_get k (cache s) with
    | Some v => (Ok (Some v), set_cache (cache_touch k v (cache s)) s)
    | None => (Ok None, s)
    end.

(** Second half, after the user function returned [v] on a miss. *)
Definition lru_store (maxsize : nat) (k : key) (v : graph_entry) : M graph_entry :=
  fun s => (Ok v, set_cache (cache_store maxsize k v (cache s)) s).

(** A raising user function leaves before anything is stored. *)
Definition lru_cache (maxsize : nat) (user_function : key -> M graph_entry)
    (k : key) : M graph_entry :=
  hit <- lru_lookup k ;;
  match hit with
  | Some v => ret v
  | None => v <- user_function k ;; lru_store maxsize k v
  end.

(** *** [make_cacheable_cudnn_graph_inputs] *)

(** [args.device_index]: [args] is the tuple of positional arguments,
    and a tuple has no such attribute. *)
Definition tuple_getattr (args : list pyarg) (attr : string)
  : result (option Z) :=
  Raise (AttributeError attr).

(** One element of the list comprehension: a tensor is replaced by its
    descriptor, anything else is kept. *)
Definition cacheable_input (args : list pyarg) (arg : pyarg)
  : result CudnnTensorAttributes :=
  match arg with
  | ArgTensor t =>
      rbind (tuple_getattr args "device_index") (fun ix =>
      Ok (mk_attrs (t_shape t) (t_stride t) (t_dtype t) ix))
  | ArgAttrs d => Ok d
  end.

(** The wrapper, on the positional arguments.  (Keyword arguments are
    forwarded as they are, and no call in the module passes any.) *)
Definition make_cacheable_cudnn_graph_inputs {A}
    (func : list CudnnTensorAttributes -> M A) (args : list pyarg) : M A :=
  cudnn_input_args <- lift (map_result (cacheable_input args) args) ;;
  func cudnn_input_args.

(** *** The graph builder *)

(** Entering the builder is noted in [builder_calls]; the number of the
    invocation also names the graph object this invocation creates. *)
Definition builder_enter (k : key) : M nat :=
  fun s =>
    (Ok (List.length (builder_calls s)),
     mk_state (cache s) (k :: builder_calls s) (executions s)
              (device s) (current_device s)).

Definition graph_build (input scale bias epsilon Y : graph_tensor) : M Z :=
  fun s =>
    let '(r, d) := cudnn_graph_build acc input scale bias epsilon Y (device s) in
    (r, mk_state (cache s) (builder_calls s) (executions s) d
                 (current_device s)).

(** The undecorated function body, statement by statement.  Python
    evaluates the arguments of a call first, so each dtype conversion
    precedes the [graph.tensor] call it feeds.  [cudnn.pygraph],
    [graph.tensor] and [graph.layernorm] are taken as building the
    description of the graph on the host: here they return, and only the
    conversions and [graph.build] can raise or reach the accelerator.
    The record kept for Y holds what the body sets on it (output flag, data
    type, stride); its name and extents stand for what the library fills
    in, and no statement below should lean on them. *)
Definition make_graph (args : key) : M graph_entry :=
  match args with
  | [a_4d; weight_4d; bias_4d] =>
      graph <- builder_enter args ;;
      _ <- load_global "cudnn" cudnn ;;   (* cudnn.pygraph(...) *)
      a_type <- lift (torch_to_cudnn_dtype acc (dtype a_4d)) ;;
      let input :=
        mk_graph_tensor graph "input" (size a_4d) (stride a_4d) a_type
                        false false in
      weight_type <- lift (torch_to_cudnn_dtype acc (dtype weight_4d)) ;;
      let scale :=
        mk_graph_tensor graph "scale" (size weight_4d) (stride weight_4d)
                        weight_type false false in
      bias_type <- lift (torch_to_cudnn_dtype acc (dtype bias_4d)) ;;
      let bias :=
        mk_graph_tensor graph "bias" (size bias_4d) (stride bias_4d)
                        bias_type false false in
      let epsilon :=
        mk_graph_tensor graph "epsilon" [1; 1; 1; 1] [1; 1; 1; 1] FLOAT
                        true false in
      (* output of the LN node, then set_output / set_data_type / set_stride *)
      y_type <- lift (torch_to_cudnn_dtype acc (dtype a_4d)) ;;
      let Y :=
        mk_graph_tensor graph "LN" (size a_4d) (stride a_4d) y_type
                        false true in
      ws <- graph_build input scale bias epsilon Y ;;
      ret (mk_entry input scale bias epsilon Y (mk_pygraph graph ws))
  | _ => raise (TypeError "_make_cudnn_layer_norm_graph() takes 3 positional arguments")
  end.

Definition maxsize : nat := 1024.

(** [@make_cacheable_cudnn_graph_inputs @lru_cache(maxsize=1024)] *)
Definition _make_cudnn_layer_norm_graph : list pyarg -> M graph_entry :=
  make_cacheable_cudnn_graph_inputs (lru_cache maxsize make_graph).

(** *** torch allocation

    Allocation itself is taken to succeed; what is recorded is the metadata
    of the new tensor. *)

(** The device the string ["cuda"] resolves to. *)
Definition cuda_device (s : state) : torch_device :=
  mk_device cuda (Some (current_device s)).

(** [torch.zeros_like(a, device="cuda")] *)
Definition torch_zeros_like_cuda (a : Tensor) : M Tensor :=
  fun s =>
    (Ok (mk_tensor (t_shape a) (preserve_format_stride acc a) (t_dtype a)
                   (cuda_device s) Zeros), s).

(** [torch.full(shape, fill_value, dtype=dt, device="cpu")] *)
Definition torch_full_cpu (shape : list Z) (fill_value : pyfloat)
    (dt : torch_dtype) : Tensor :=
  mk_tensor shape (contiguous_stride shape) dt (mk_device cpu None)
            (Full fill_value).

(** [torch.empty(n, device="cuda", dtype=dt)] *)
Definition torch_empty_cuda (n : Z) (dt : torch_dtype) : M Tensor :=
  fun s =>
    (Ok (mk_tensor [n] (contiguous_stride [n]) dt (cuda_device s)
                   Uninitialised), s).

Definition graph_execute (graph : pygraph)
    (variant_pack : list (graph_tensor * option Tensor)) (workspace : Tensor)
  : M unit :=
  fun s =>
    let '(r, d) :=
      cudnn_graph_execute acc graph variant_pack workspace (device s) in
    (r, mk_state (cache s) (builder_calls s)
                 ((graph, variant_pack, workspace) :: executions s) d
                 (current_device s)).

(** *** Entry points *)

Definition layer_norm_impl (a : Tensor) (normalized_shape : list Z)
    (weight bias : option Tensor) (eps : pyfloat) : M Tensor :=
  d <- lift (_transform_layer_norm_inputs a normalized_shape weight bias) ;;
  let '(a_4d, weight_4d, bias_4d) := d in
  e <- _make_cudnn_layer_norm_graph
         [ArgAttrs a_4d; ArgAttrs weight_4d; ArgAttrs bias_4d] ;;
  Y_actual <- torch_zeros_like_cuda a ;;
  let epsilon_cpu := torch_full_cpu [1; 1; 1; 1] eps float32 in
  workspace <- torch_empty_cuda (workspace_size (e_graph e)) uint8 ;;
  let cudnn_to_torch_tensor :=
    [(e_input e, Some a); (e_scale e, weight); (e_bias e, bias);
     (e_epsilon e, Some epsilon_cpu); (e_Y e, Some Y_actual)] in
  _ <- graph_execute (e_graph e) cudnn_to_torch_tensor workspace ;;
  ret Y_actual.

Definition layer_norm_checker (a : Tensor) (normalized_shape : list Z)
    (weight bias : option Tensor) (eps : pyfloat) : M bool :=
  lib <- load_global "cudnn" cudnn ;;
  match lib with
  | None => ret false
  | Some _ =>
      d <- lift (_transform_layer_norm_inputs a normalized_shape weight bias) ;;
      let '(a_4d, weight_4d, bias_4d) := d in
      try_except
        (_ <- _make_cudnn_layer_norm_graph
                [ArgAttrs a_4d; ArgAttrs weight_4d; ArgAttrs bias_4d] ;;
         ret true)
        (ret false)
  end.

(** Number of builder invocations recorded for a key. *)
Definition builder_calls_of (k : key) (s : state) : nat :=
  List.length (filter (key_eqb k) (builder_calls s)).

(** A run of calls to the graph function, one after the other, each with
    the descriptors of one key. *)
Fixpoint call_all (ks : list key) (s : state)
  : list (result graph_entry) * state :=
  match ks with
  | [] => ([], s)
  | k :: ks' =>
      let '(r, s1) := _make_cudnn_layer_norm_graph (map ArgAttrs k) s in
      let '(rs, s2) := call_all ks' s1 in
      (r :: rs, s2)
  end.



(** *** Calls from several threads

    [lru_cache] holds its lock while it looks the key up and while it
    stores a result, and releases it around the user function.  A call is
    therefore two atomic steps, and the steps of different callers may
    interleave in any order. *)

(** The builder is taken as one step; letting it interleave as well only
    adds behaviours. *)
Inductive thread : Type :=
| Calling (k : key)                    (* about to look the key up *)
| Building (k : key)                   (* missed; user function not yet run *)
| Returned (r : result graph_entry).

Definition thread_step (t : thread) (s : state) : thread * state :=
  match t with
  | Calling k =>
      match lru_lookup k s with
      | (Ok (Some v), s') => (Returned (Ok v), s')
      | (Ok None, s') => (Building k, s')
      | (Raise e, s') => (Returned (Raise e), s')
      end
  | Building k =>
      let '(r, s') := (v <- make_graph k ;; lru_store maxsize k v) s in
      (Returned r, s')
  | Returned r => (Returned r, s)
  end.

Fixpoint set_nth {A} (i : nat) (x : A) (l : list A) : list A :=
  match l, i with
  | [], _ => []
  | _ :: l', O => x :: l'
  | y :: l', S i' => y :: set_nth i' x l'
  end.

(** [sched] names, step by step, the thread that moves next. *)
Fixpoint run_schedule (sched : list nat) (pool : list thread) (s : state)
  : list thread * state :=
  match sched with
  | [] => (pool, s)
  | i :: sched' =>
      match nth_error pool i with
      | Some t =>
          let '(t', s') := thread_step t s in
          run_schedule sched' (set_nth i t' pool) s'
      | None => run_schedule sched' pool s
      end
  end.

Definition pending (t : thread) : bool :=
  match t with Returned _ => false | _ => true end.

Definition count_pending (pool : list thread) : nat :=
  List.length (filter pending pool).

(** The schedule in which caller 0 runs to its return, then caller 1,
    and so on: no two calls overlap. *)
Definition sequential_schedule (first n : nat) : list nat :=
  flat_map (fun i => [i; i]) (seq first n).


(** *** What a compiled entry looks like *)

(** The five symbolic tensors of an entry, in the order of the tuple. *)
Definition handles (e : graph_entry) : list graph_tensor :=
  [e_input e; e_scale e; e_bias e; e_epsilon e; e_Y e].

(** [e] is specialised to the key [k]: its input, scale and bias
    placeholders carry the extents, strides and converted dtypes of the
    three descriptors, epsilon is the pass-by-value FLOAT scalar, the
    output has the input's stride and data type, and the five handles
    belong to the entry's graph under five different names. *)
Definition built_for (k : key) (e : graph_entry) : Prop :=
  exists a_4d weight_4d bias_4d,
    k = [a_4d; weight_4d; bias_4d]
    /\ gt_dim (e_input e) = size a_4d
    /\ gt_stride (e_input e) = stride a_4d
    /\ torch_to_cudnn_dtype acc (dtype a_4d) = Ok (gt_data_type (e_input e))
    /\ gt_dim (e_scale e) = size weight_4d
    /\ gt_stride (e_scale e) = stride weight_4d
    /\ torch_to_cudnn_dtype acc (dtype weight_4d)
       = Ok (gt_data_type (e_scale e))
    /\ gt_dim (e_bias e) = size bias_4d
    /\ gt_stride (e_bias e) = stride bias_4d
    /\ torch_to_cudnn_dtype acc (dtype bias_4d) = Ok (gt_data_type (e_bias e))
    /\ e_epsilon e
       = mk_graph_tensor (graph_id (e_graph e)) "epsilon"
                         [1; 1; 1; 1] [1; 1; 1; 1] FLOAT true false
    /\ gt_is_output (e_Y e) = true
    /\ gt_stride (e_Y e) = stride a_4d
    /\ gt_data_type (e_Y e) = gt_data_type (e_input e)
    /\ Forall (fun h => gt_graph h = graph_id (e_graph e)) (handles e)
    /\ NoDup (map gt_name (handles e)).

(** Every stored entry is specialised to the key it is stored under. *)
Definition cache_built (s : state) : Prop :=
  Forall (fun ke => built_for (fst ke) (snd ke)) (cache s).

(** The part of the above that the builder's own text fixes: the three
    placeholders it names "input", "scale" and "bias" with the extents,
    strides and converted dtypes of the three descriptors, the epsilon
    placeholder it declares, and what it sets on the output (output flag,
    the input's converted dtype, the input's stride).  Nothing is said of
    the name or the extents of the output, which the library chooses. *)
Definition specialised_to (k : key) (e : graph_entry) : Prop :=
  exists a_4d weight_4d bias_4d a_type weight_type bias_type,
    k = [a_4d; weight_4d; bias_4d]
    /\ torch_to_cudnn_dtype acc (dtype a_4d) = Ok a_type
    /\ torch_to_cudnn_dtype acc (dtype weight_4d) = Ok weight_type
    /\ torch_to_cudnn_dtype acc (dtype bias_4d) = Ok bias_type
    /\ e_input e
       = mk_graph_tensor (graph_id (e_graph e)) "input"
                         (size a_4d) (stride a_4d) a_type false false
    /\ e_scale e
       = mk_graph_tensor (graph_id (e_graph e)) "scale"
                         (size weight_4d) (stride weight_4d) weight_type
                         false false
    /\ e_bias e
       = mk_graph_tensor (graph_id (e_graph e)) "bias"
                         (size bias_4d) (stride bias_4d) bias_type
                         false false
    /\ e_epsilon e
       = mk_graph_tensor (graph_id (e_graph e)) "epsilon"
                         [1; 1; 1; 1] [1; 1; 1; 1] FLOAT true false
    /\ gt_graph (e_Y e) = graph_id (e_graph e)
    /\ gt_is_output (e_Y e) = true
    /\ gt_data_type (e_Y e) = a_type
    /\ gt_stride (e_Y e) = stride a_4d.

Definition cache_specialised (s : state) : Prop :=
  Forall (fun ke => specialised_to (fst ke) (snd ke)) (cache s).

(** What caller number i, who called with key [k], holds at some point
    of a run: still its own key, or the result of its call. *)
Definition holds_entry_for (k : key) (t : thread) : Prop :=
  match t with
  | Calling k' | Building k' => k' = k
  | Returned (Ok e) => built_for k e
  | Returned (Raise _) => True
  end.

(** ** Arithmetic of the wrapped product *)

Lemma int64_wrap_small (z : Z) :
  - 2 ^ 63 <= z < 2 ^ 63 -> int64_wrap z = z.
Proof.
  intros Hz. unfold int64_wrap.
  rewrite Z.mod_small; lia.
Qed.

Lemma int64_wrap_mul_l (a x : Z) :
  int64_wrap (int64_wrap a * x) = int64_wrap (a * x).
Proof.
  unfold int64_wrap. f_equal.
  pose proof (Z.div_mod (a + 2 ^ 63) (2 ^ 64) ltac:(lia)) as Hd.
  set (q := (a + 2 ^ 63) / 2 ^ 64) in *.
  replace (((a + 2 ^ 63) mod 2 ^ 64 - 2 ^ 63) * x + 2 ^ 63)
    with (a * x + 2 ^ 63 + (- q * x) * 2 ^ 64) by lia.
  apply Z_mod_plus_full.
Qed.

Lemma np_prod_fold (l : list Z) (p : Z) :
  fold_left (fun q x => int64_wrap (q * x)) l (int64_wrap p)
  = int64_wrap (p * extent_product l).
Proof.
  revert p. induction l as [|x l IH]; intros p; simpl.
  - f_equal. lia.
  - rewrite int64_wrap_mul_l, IH. f_equal. lia.
Qed.

Lemma np_prod_wrap (l : list Z) : np_prod l = int64_wrap (extent_product l).
Proof.
  unfold np_prod.
  change 1 with (int64_wrap 1) at 1.
  rewrite np_prod_fold. f_equal. lia.
Qed.

Lemma extent_product_nonneg (l : list Z) :
  Forall (fun e => 0 <= e) l -> 0 <= extent_product l.
Proof.
  induction 1 as [|x l Hx _ IH]; simpl; [lia | nia].
Qed.

Lemma np_prod_exact (l : list Z) :
  Forall (fun e => 0 <= e) l -> extent_product l < 2 ^ 63 ->
  np_prod l = extent_product l.
Proof.
  intros Hpos Hlt. rewrite np_prod_wrap.
  apply int64_wrap_small.
  pose proof (extent_product_nonneg l Hpos). lia.
Qed.

(** For a tensor without an empty dimension both products are bounded by
    its number of elements. *)
Lemma extent_product_app (l1 l2 : list Z) :
  extent_product (l1 ++ l2) = extent_product l1 * extent_product l2.
Proof.
  induction l1 as [|x l1 IH].
  - change (extent_product l2 = 1 * extent_product l2). lia.
  - change (x * extent_product (l1 ++ l2)
            = x * extent_product l1 * extent_product l2).
    rewrite IH. lia.
Qed.

Lemma extent_product_pos (l : list Z) :
  Forall (fun e => 0 < e) l -> 0 < extent_product l.
Proof.
  induction 1 as [|x l Hx _ IH]; simpl; [lia | nia].
Qed.

Lemma positive_extents_fit (lead T : list Z) (bound : Z) :
  Forall (fun e => 0 < e) (lead ++ T) ->
  extent_product (lead ++ T) < bound ->
  extent_product lead < bound /\ extent_product T < bound.
Proof.
  intros Hpos Hlt. apply Forall_app in Hpos as [Hl HT].
  pose proof (extent_product_pos lead Hl) as Hp.
  pose proof (extent_product_pos T HT) as Hq.
  rewrite extent_product_app in Hlt.
  generalize dependent (extent_product lead).
  generalize dependent (extent_product T).
  intros q Hq p Hp Hlt.
  assert (p <= p * q) by nia. assert (q <= p * q) by nia. lia.
Qed.

Lemma slice_to_suffix {A} (lead T : list A) :
  T <> [] -> slice_to (lead ++ T) (- Z.of_nat (List.length T)) = lead.
Proof.
  intros HT. unfold slice_to.
  assert (0 < List.length T)%nat as Hlen
    by (destruct T; [congruence | simpl; lia]).
  destruct (Z.ltb_spec (- Z.of_nat (List.length T)) 0) as [_|Hge]; [|lia].
  rewrite List.length_app.
  replace (Z.to_nat (Z.max 0 (- Z.of_nat (List.length T)
                               + Z.of_nat (List.length lead + List.length T))))
    with (List.length lead) by lia.
  rewrite firstn_app, firstn_all, Nat.sub_diag. simpl.
  apply app_nil_r.
Qed.

(** ** Structural equality decides equality of keys *)

Lemma list_eqb_eq {A} (eqb : A -> A -> bool) :
  (forall x y, eqb x y = true <-> x = y) ->
  forall l1 l2, list_eqb eqb l1 l2 = true <-> l1 = l2.
Proof.
  intros H. induction l1 as [|x l1 IH]; intros [|y l2]; simpl;
    try (split; congruence).
  rewrite andb_true_iff, H, IH.
  split; [intros [-> ->]; reflexivity | intros [= -> ->]; auto].
Qed.

Lemma torch_dtype_eqb_eq (x y : torch_dtype) :
  torch_dtype_eqb x y = true <-> x = y.
Proof. destruct x, y; simpl; split; congruence. Qed.

Lemma option_Z_eqb_eq (x y : option Z) : option_Z_eqb x y = true <-> x = y.
Proof.
  destruct x as [i|], y as [j|]; simpl; try (split; congruence).
  rewrite Z.eqb_eq. split; congruence.
Qed.

Lemma attrs_eqb_eq (x y : CudnnTensorAttributes) :
  attrs_eqb x y = true <-> x = y.
Proof.
  destruct x as [s1 st1 d1 i1], y as [s2 st2 d2 i2]. unfold attrs_eqb. simpl.
  rewrite !andb_true_iff, !(list_eqb_eq Z.eqb Z.eqb_eq),
    torch_dtype_eqb_eq, option_Z_eqb_eq.
  split; [intros [[[-> ->] ->] ->]; reflexivity | intros [= -> -> -> ->]; auto].
Qed.

Lemma key_eqb_eq (k1 k2 : key) : key_eqb k1 k2 = true <-> k1 = k2.
Proof. apply list_eqb_eq, attrs_eqb_eq. Qed.

Lemma key_eqb_refl (k : key) : key_eqb k k = true.
Proof. apply key_eqb_eq. reflexivity. Qed.

Lemma key_eqb_neq (k1 k2 : key) : key_eqb k1 k2 = false <-> k1 <> k2.
Proof.
  rewrite <- key_eqb_eq. destruct (key_eqb k1 k2); split; congruence.
Qed.

(** ** The store *)

Lemma cache_get_none {V} (k : key) (c : list (key * V)) :
  cache_get k c = None <-> ~ In k (cache_keys c).
Proof.
  induction c as [|[k' v] c IH]; simpl.
  - tauto.
  - destruct (key_eqb k k') eqn:E.
    + apply key_eqb_eq in E. subst. split; [discriminate | tauto].
    + apply key_eqb_neq in E. rewrite IH. split; [intros H [?|?] | ]; auto.
Qed.

Lemma cache_get_some {V} (k : key) (v : V) (c : list (key * V)) :
  cache_get k c = Some v -> In (k, v) c.
Proof.
  induction c as [|[k' v'] c IH]; simpl; [discriminate|].
  destruct (key_eqb k k') eqn:E.
  - apply key_eqb_eq in E. intros [= ->]. subst. auto.
  - auto.
Qed.

Lemma cache_get_in_keys {V} (k : key) (v : V) (c : list (key * V)) :
  cache_get k c = Some v -> In k (cache_keys c).
Proof.
  intros H. apply cache_get_some in H.
  apply (in_map fst) in H. exact H.
Qed.

Lemma cache_keys_remove {V} (k : key) (c : list (key * V)) :
  cache_keys (cache_remove k c)
  = filter (fun k' => negb (key_eqb k k')) (cache_keys c).
Proof.
  induction c as [|[k' v] c IH]; simpl; [reflexivity|].
  destruct (key_eqb k k'); simpl; rewrite IH; reflexivity.
Qed.

Lemma cache_keys_touch {V} (k : key) (v : V) (c : list (key * V)) :
  cache_keys (cache_touch k v c) = recency_touch k (cache_keys c).
Proof. unfold cache_touch, recency_touch. simpl. now rewrite cache_keys_remove. Qed.

Lemma filter_other_notin (k : key) (ks : list key) :
  ~ In k ks -> filter (fun k' => negb (key_eqb k k')) ks = ks.
Proof.
  induction ks as [|k' ks IH]; simpl; [reflexivity|].
  intros H. destruct (key_eqb k k') eqn:E.
  - apply key_eqb_eq in E. subst. tauto.
  - simpl. rewrite IH; tauto.
Qed.

Lemma cache_remove_length_hit {V} (k : key) (v : V) (c : list (key * V)) :
  cache_get k c = Some v ->
  (S (List.length (cache_remove k c)) <= List.length c)%nat.
Proof.
  induction c as [|[k' v'] c IH]; simpl; [discriminate|].
  destruct (key_eqb k k') eqn:E.
  - intros _. clear IH. apply le_n_S.
    induction c as [|[k2 v2] c IH]; simpl; [lia|].
    destruct (key_eqb k k2); simpl; lia.
  - intros H. simpl. apply IH in H. lia.
Qed.

Lemma cache_touch_length {V} (n : nat) (k : key) (v : V) (c : list (key * V)) :
  cache_get k c = Some v -> (List.length c <= n)%nat ->
  (List.length (cache_touch k v c) <= n)%nat.
Proof.
  intros H Hn. pose proof (cache_remove_length_hit k v c H).
  unfold cache_touch. simpl. lia.
Qed.

Lemma cache_store_length {V} (n : nat) (k : key) (v : V) (c : list (key * V)) :
  (List.length c <= n)%nat -> (List.length (cache_store n k v c) <= n)%nat.
Proof.
  intros Hn. unfold cache_store. destruct (cache_get k c); [exact Hn|].
  rewrite length_firstn. lia.
Qed.

Lemma recency_touch_NoDup (k : key) (ks : list key) :
  NoDup ks -> NoDup (recency_touch k ks).
Proof.
  intros H. unfold recency_touch. constructor.
  - rewrite filter_In. intros [_ E]. rewrite key_eqb_refl in E. discriminate.
  - apply NoDup_filter, H.
Qed.

Lemma firstn_incl {A} (n : nat) (l : list A) (x : A) :
  In x (firstn n l) -> In x l.
Proof.
  revert n. induction l as [|y l IH]; intros [|n]; simpl; try tauto.
  intros [->|H]; eauto.
Qed.

Lemma firstn_NoDup {A} (n : nat) (l : list A) : NoDup l -> NoDup (firstn n l).
Proof.
  revert n. induction l as [|x l IH]; intros [|n] H; simpl;
    try constructor.
  - inversion H; subst. intros Hin. apply firstn_incl in Hin. tauto.
  - inversion H; subst. auto.
Qed.

Lemma cache_keys_firstn {V} (n : nat) (c : list (key * V)) :
  cache_keys (firstn n c) = firstn n (cache_keys c).
Proof. unfold cache_keys. symmetry. apply firstn_map. Qed.

Lemma cache_keys_store_miss {V} (n : nat) (k : key) (v : V) (c : list (key * V)) :
  cache_get k c = None ->
  cache_keys (cache_store n k v c) = firstn n (recency_touch k (cache_keys c)).
Proof.
  intros H. unfold cache_store. rewrite H, cache_keys_firstn.
  unfold recency_touch. simpl cache_keys.
  rewrite filter_other_notin; [reflexivity|].
  apply cache_get_none, H.
Qed.

Lemma cache_store_NoDup {V} (n : nat) (k : key) (v : V) (c : list (key * V)) :
  NoDup (cache_keys c) -> NoDup (cache_keys (cache_store n k v c)).
Proof.
  intros H. destruct (cache_get k c) eqn:E.
  - unfold cache_store. rewrite E. exact H.
  - rewrite (cache_keys_store_miss n k v c E).
    apply firstn_NoDup, recency_touch_NoDup, H.
Qed.

Lemma cache_get_touch {V} (k : key) (v : V) (c : list (key * V)) :
  cache_get k (cache_touch k v c) = Some v.
Proof. unfold cache_touch. simpl. now rewrite key_eqb_refl. Qed.

Lemma cache_get_firstn_head {V} (n : nat) (k : key) (v : V)
    (c : list (key * V)) :
  (0 < n)%nat -> cache_get k (firstn n ((k, v) :: c)) = Some v.
Proof.
  intros Hn. destruct n as [|n]; [lia|].
  rewrite firstn_cons. simpl. now rewrite key_eqb_refl.
Qed.

Lemma cache_get_store {V} (n : nat) (k : key) (v : V) (c : list (key * V)) :
  cache_get k c = None -> cache_get k (cache_store (S n) k v c) = Some v.
Proof.
  intros H. unfold cache_store. rewrite H. simpl. now rewrite key_eqb_refl.
Qed.

(** ** What the builder touches *)

Ltac unfold_monad :=
  unfold bind, ret, raise, lift, load_global, builder_enter, graph_build,
    lru_lookup, lru_store, set_cache, try_except in *.

Ltac builder_cases :=
  unfold make_graph; unfold_monad; unfold cudnn; simpl;
  destruct (cudnn_available acc); simpl; try tauto;
  repeat match goal with
    | |- context [torch_to_cudnn_dtype acc ?d] =>
        destruct (torch_to_cudnn_dtype acc d); simpl; try tauto
    | |- context [cudnn_graph_build acc ?i ?sc ?b ?e ?y ?d] =>
        destruct (cudnn_graph_build acc i sc b e y d) as [[?|?] ?]; simpl;
        try tauto
    end.

Lemma make_graph_frame (k : key) (s : state) :
  cache (snd (make_graph k s)) = cache s
  /\ executions (snd (make_graph k s)) = executions s
  /\ current_device (snd (make_graph k s)) = current_device s.
Proof.
  destruct k as [|a [|w [|b [|x k]]]]; try (simpl; tauto).
  builder_cases.
Qed.

Lemma make_graph_cache (k : key) (s : state) :
  cache (snd (make_graph k s)) = cache s.
Proof. apply make_graph_frame. Qed.

(** Every call with three descriptors is one more builder invocation,
    whether or not it returns. *)
Lemma make_graph_calls (a w b : CudnnTensorAttributes) (s : state) :
  builder_calls (snd (make_graph [a; w; b] s)) = [a; w; b] :: builder_calls s.
Proof. builder_cases. Qed.

Lemma make_graph_calls_mono (k : key) (s : state) :
  builder_calls (snd (make_graph k s)) = builder_calls s
  \/ builder_calls (snd (make_graph k s)) = k :: builder_calls s.
Proof.
  destruct k as [|a [|w [|b [|x k]]]]; try (simpl; tauto).
  right. apply make_graph_calls.
Qed.

(** ** One call to the cached function *)

Lemma lru_cache_hit (n : nat) (k : key) (v : graph_entry) (s : state) :
  cache_get k (cache s) = Some v ->
  lru_cache n make_graph k s
  = (Ok v, set_cache (cache_touch k v (cache s)) s).
Proof.
  intros H. unfold lru_cache, bind, lru_lookup. rewrite H. reflexivity.
Qed.

Lemma lru_cache_miss (n : nat) (k : key) (s : state) :
  cache_get k (cache s) = None ->
  lru_cache n make_graph k s
  = match make_graph k s with
    | (Ok v, s') => (Ok v, set_cache (firstn n ((k, v) :: cache s')) s')
    | (Raise e, s') => (Raise e, s')
    end.
Proof.
  intros H. unfold lru_cache, bind, lru_lookup. rewrite H.
  pose proof (make_graph_cache k s) as Hc.
  destruct (make_graph k s) as [[v|e] s']; cbn [snd] in Hc; [|reflexivity].
  unfold lru_store, cache_store. rewrite Hc, H. reflexivity.
Qed.

(** The three ways a call can go, with the state it leaves. *)
Lemma lru_cache_cases (n : nat) (k : key) (s : state) :
  (exists v, cache_get k (cache s) = Some v
     /\ lru_cache n make_graph k s
        = (Ok v, set_cache (cache_touch k v (cache s)) s))
  \/ (exists v s', cache_get k (cache s) = None
        /\ make_graph k s = (Ok v, s') /\ cache s' = cache s
        /\ lru_cache n make_graph k s
           = (Ok v, set_cache (firstn n ((k, v) :: cache s)) s'))
  \/ (exists e s', cache_get k (cache s) = None
        /\ make_graph k s = (Raise e, s') /\ cache s' = cache s
        /\ lru_cache n make_graph k s = (Raise e, s')).
Proof.
  destruct (cache_get k (cache s)) as [v|] eqn:H.
  - left. exists v. split; [reflexivity|]. now apply lru_cache_hit.
  - right. rewrite (lru_cache_miss n k s H).
    pose proof (make_graph_cache k s) as Hc.
    destruct (make_graph k s) as [[v|e] s']; cbn [snd] in Hc.
    + left. exists v, s'. rewrite Hc. auto.
    + right. exists e, s'. auto.
Qed.

(** A raising call leaves the store as it found it. *)
Lemma lru_cache_raise (n : nat) (k : key) (e : exn) (s : state) :
  fst (lru_cache n make_graph k s) = Raise e ->
  cache (snd (lru_cache n make_graph k s)) = cache s.
Proof.
  destruct (lru_cache_cases n k s)
    as [(v & _ & ->) | [(v & s' & _ & _ & _ & ->) | (e' & s' & _ & _ & Hc & ->)]];
    cbn [fst snd]; try discriminate.
  intros _. exact Hc.
Qed.



Lemma lru_cache_NoDup (n : nat) (k : key) (s : state) :
  NoDup (cache_keys (cache s)) ->
  NoDup (cache_keys (cache (snd (lru_cache n make_graph k s)))).
Proof.
  intros Hnd.
  destruct (lru_cache_cases n k s)
    as [(v' & H & E) | [(v' & s' & H & _ & _ & E) | (e' & s' & _ & _ & Hc & E)]];
    rewrite E; unfold set_cache; cbn [fst snd cache].
  - rewrite cache_keys_touch. now apply recency_touch_NoDup.
  - rewrite cache_keys_firstn.
    apply (firstn_NoDup n (k :: cache_keys (cache s))).
    constructor; [apply cache_get_none, H | exact Hnd].
  - now rewrite Hc.
Qed.

(** After a returning call the key is in the store with the value returned. *)
Lemma lru_cache_ok_get (n : nat) (k : key) (v : graph_entry) (s : state) :
  (0 < n)%nat ->
  fst (lru_cache n make_graph k s) = Ok v ->
  cache_get k (cache (snd (lru_cache n make_graph k s))) = Some v.
Proof.
  intros Hn Hok. destruct n as [|n]; [lia|].
  destruct (lru_cache_cases (S n) k s)
    as [(v' & H & E) | [(v' & s' & H & _ & _ & E) | (e' & s' & _ & _ & _ & E)]];
    rewrite E in *; unfold set_cache; cbn [fst snd cache] in *;
    try discriminate; inversion Hok; subst.
  - apply cache_get_touch.
  - cbn [firstn cache_get]. now rewrite key_eqb_refl.
Qed.

(** A call runs the builder at most once and touches nothing else. *)
Lemma lru_cache_frame (n : nat) (k : key) (s : state) :
  executions (snd (lru_cache n make_graph k s)) = executions s
  /\ current_device (snd (lru_cache n make_graph k s)) = current_device s.
Proof.
  pose proof (make_graph_frame k s) as (_ & He & Hd).
  destruct (lru_cache_cases n k s)
    as [(v' & H & E) | [(v' & s' & H & Em & _ & E) | (e' & s' & _ & Em & _ & E)]];
    rewrite E; try rewrite Em in *; unfold set_cache; cbn [fst snd cache executions current_device] in *;
    auto.
Qed.

(** The wrapper hands descriptors through untouched. *)
Lemma map_result_descriptors (args : list pyarg)
    (ds : list CudnnTensorAttributes) :
  map_result (cacheable_input args) (map ArgAttrs ds) = Ok ds.
Proof.
  induction ds as [|d ds IH]; simpl; [reflexivity|].
  rewrite IH. reflexivity.
Qed.

Lemma wrapper_descriptors {A} (func : list CudnnTensorAttributes -> M A)
    (ds : list CudnnTensorAttributes) :
  make_cacheable_cudnn_graph_inputs func (map ArgAttrs ds) = func ds.
Proof.
  unfold make_cacheable_cudnn_graph_inputs, bind, lift.
  rewrite map_result_descriptors. reflexivity.
Qed.

Lemma graph_call_key (k : key) :
  _make_cudnn_layer_norm_graph (map ArgAttrs k)
  = lru_cache maxsize make_graph k.
Proof. apply wrapper_descriptors. Qed.

Lemma graph_call_descriptors (a w b : CudnnTensorAttributes) :
  _make_cudnn_layer_norm_graph [ArgAttrs a; ArgAttrs w; ArgAttrs b]
  = lru_cache maxsize make_graph [a; w; b].
Proof. apply (wrapper_descriptors (lru_cache maxsize make_graph) [a; w; b]). Qed.

Lemma maxsize_pos : (0 < maxsize)%nat.
Proof. unfold maxsize. apply Nat.lt_0_succ. Qed.

Lemma lru_cache_calls_hit (n : nat) (k : key) (v : graph_entry) (s : state) :
  cache_get k (cache s) = Some v ->
  builder_calls (snd (lru_cache n make_graph k s)) = builder_calls s.
Proof. intros H. rewrite (lru_cache_hit n k v s H). reflexivity. Qed.

Lemma lru_cache_calls_miss (n : nat) (a w b : CudnnTensorAttributes)
    (s : state) :
  cache_get [a; w; b] (cache s) = None ->
  builder_calls (snd (lru_cache n make_graph [a; w; b] s))
  = [a; w; b] :: builder_calls s.
Proof.
  intros H. rewrite (lru_cache_miss n _ s H).
  pose proof (make_graph_calls a w b s) as Hc.
  destruct (make_graph [a; w; b] s) as [[v|e] s']; exact Hc.
Qed.

(** A call on one key does not bring another key into the store. *)
Lemma lru_cache_other_absent (n : nat) (k k' : key) (s : state) :
  k' <> k -> cache_get k' (cache s) = None ->
  cache_get k' (cache (snd (lru_cache n make_graph k s))) = None.
Proof.
  intros Hne Habs. apply cache_get_none. rewrite cache_get_none in Habs.
  destruct (lru_cache_cases n k s)
    as [(v' & H & E) | [(v' & s' & H & _ & _ & E) | (e' & s' & _ & _ & Hc & E)]];
    rewrite E; unfold set_cache; cbn [fst snd cache].
  - rewrite cache_keys_touch. unfold recency_touch.
    intros [->|Hin]; [congruence|]. apply filter_In in Hin. tauto.
  - rewrite cache_keys_firstn. intros Hin. apply firstn_incl in Hin.
    simpl in Hin. destruct Hin as [Hin|Hin]; [congruence | tauto].
  - now rewrite Hc.
Qed.

(** ** The canonical descriptors *)

(** C1. For an input of shape [lead ++ T] with a non-empty normalised
    suffix [T] and weight and bias tensors, the canonicaliser returns the
    three descriptors of the 4-D layout: extents (N, C, 1, 1) for the
    input and (1, C, 1, 1) for weight and bias, with C the product of [T]
    and N the product of [lead] (1 when [lead] is empty), all with strides
    (C, 1, 1, 1) and each with its tensor's dtype and device index.  The
    answer is the same for any tensors that agree in extents, dtype and
    device whatever their strides and buffers, and shape (8, 16, 64) with
    suffix (64,) gives N = 128 and C = 64.  The extents are those of a
    tensor: non-negative, with both products within the int64 that
    [np.prod] computes in (for a tensor without an empty dimension that is
    its number of elements being an int64). *)
Theorem transform_layer_norm_inputs_canonical
    (a weight bias : Tensor) (lead T : list Z) :
  T <> [] ->
  t_shape a = lead ++ T ->
  Forall (fun e => 0 <= e) (t_shape a) ->
  extent_product lead < 2 ^ 63 ->
  extent_product T < 2 ^ 63 ->
  let N := extent_product lead in
  let C := extent_product T in
  _transform_layer_norm_inputs a T (Some weight) (Some bias)
  = Ok (mk_attrs [N; C; 1; 1] [C; 1; 1; 1] (t_dtype a) (index (t_device a)),
        mk_attrs [1; C; 1; 1] [C; 1; 1; 1]
                 (t_dtype weight) (index (t_device weight)),
        mk_attrs [1; C; 1; 1] [C; 1; 1; 1]
                 (t_dtype bias) (index (t_device bias)))
  /\ (List.length (t_shape a) = List.length T -> N = 1)
  /\ (forall a' weight' bias' : Tensor,
        t_shape a' = t_shape a -> t_dtype a' = t_dtype a ->
        t_device a' = t_device a ->
        t_dtype weight' = t_dtype weight -> t_device weight' = t_device weight ->
        t_dtype bias' = t_dtype bias -> t_device bias' = t_device bias ->
        _transform_layer_norm_inputs a' T (Some weight') (Some bias')
        = _transform_layer_norm_inputs a T (Some weight) (Some bias))
  /\ (t_shape a = [8; 16; 64] -> T = [64] -> N = 128 /\ C = 64).
Proof.
  intros HT Hshape Hpos Hlead HTlt N C.
  rewrite Hshape in Hpos. apply Forall_app in Hpos as [Hposl HposT].
  split; [|split; [|split]].
  - unfold _transform_layer_norm_inputs. simpl.
    rewrite Hshape, (slice_to_suffix lead T HT).
    rewrite (np_prod_exact T HposT HTlt), (np_prod_exact lead Hposl Hlead).
    reflexivity.
  - intros Hlen. rewrite Hshape, List.length_app in Hlen.
    destruct lead; [reflexivity | simpl in Hlen; lia].
  - intros a' weight' bias' Hs Hd Hdev Hwd Hwdev Hbd Hbdev.
    unfold _transform_layer_norm_inputs. simpl.
    rewrite Hs, Hd, Hdev, Hwd, Hwdev, Hbd, Hbdev. reflexivity.
  - subst N C. intros Ha ->. rewrite Ha in Hshape.
    assert (lead = [8; 16]) as ->; [|split; reflexivity].
    destruct lead as [|x [|y [|z lead]]]; simpl in Hshape;
      inversion Hshape; subst; try reflexivity;
      destruct lead; discriminate.
Qed.

(** ** The execution path, step by step *)

Lemma layer_norm_impl_transform_raise (a : Tensor) (T : list Z)
    (weight bias : option Tensor) (eps : pyfloat) (x : exn) (s : state) :
  _transform_layer_norm_inputs a T weight bias = Raise x ->
  layer_norm_impl a T weight bias eps s = (Raise x, s).
Proof.
  intros Ht. unfold layer_norm_impl, bind, lift. rewrite Ht. reflexivity.
Qed.

Lemma layer_norm_impl_graph_raise (a : Tensor) (T : list Z)
    (weight bias : option Tensor) (eps : pyfloat)
    (a_4d weight_4d bias_4d : CudnnTensorAttributes) (x : exn)
    (s s1 : state) :
  _transform_layer_norm_inputs a T weight bias
  = Ok (a_4d, weight_4d, bias_4d) ->
  lru_cache maxsize make_graph [a_4d; weight_4d; bias_4d] s = (Raise x, s1) ->
  layer_norm_impl a T weight bias eps s = (Raise x, s1).
Proof.
  intros Ht Hg. unfold layer_norm_impl, bind, lift. rewrite Ht.
  rewrite graph_call_descriptors, Hg. reflexivity.
Qed.

Lemma layer_norm_impl_run (a : Tensor) (T : list Z)
    (weight bias : option Tensor) (eps : pyfloat)
    (a_4d weight_4d bias_4d : CudnnTensorAttributes) (e : graph_entry)
    (s s1 : state) :
  _transform_layer_norm_inputs a T weight bias
  = Ok (a_4d, weight_4d, bias_4d) ->
  lru_cache maxsize make_graph [a_4d; weight_4d; bias_4d] s = (Ok e, s1) ->
  let Y_actual :=
    mk_tensor (t_shape a) (preserve_format_stride acc a) (t_dtype a)
              (cuda_device s1) Zeros in
  let workspace :=
    mk_tensor [workspace_size (e_graph e)]
              (contiguous_stride [workspace_size (e_graph e)]) uint8
              (cuda_device s1) Uninitialised in
  let variant_pack :=
    [(e_input e, Some a); (e_scale e, weight); (e_bias e, bias);
     (e_epsilon e, Some (torch_full_cpu [1; 1; 1; 1] eps float32));
     (e_Y e, Some Y_actual)] in
  layer_norm_impl a T weight bias eps s
  = (match fst (cudnn_graph_execute acc (e_graph e) variant_pack workspace
                                    (device s1)) with
     | Ok _ => Ok Y_actual
     | Raise x => Raise x
     end,
     mk_state (cache s1) (builder_calls s1)
              ((e_graph e, variant_pack, workspace) :: executions s1)
              (snd (cudnn_graph_execute acc (e_graph e) variant_pack
                                        workspace (device s1)))
              (current_device s1)).
Proof.
  intros Ht Hg Y_actual workspace variant_pack.
  unfold layer_norm_impl, bind, lift. rewrite Ht.
  rewrite graph_call_descriptors, Hg.
  unfold torch_zeros_like_cuda, torch_empty_cuda, graph_execute, ret.
  fold Y_actual workspace variant_pack.
  destruct (cudnn_graph_execute acc (e_graph e) variant_pack workspace
                                (device s1)) as [[[]|x] d]; reflexivity.
Qed.

(** What an execution call leaves in the store and in the builder log is
    what its call to the graph function left there. *)
Lemma layer_norm_impl_state (a : Tensor) (T : list Z)
    (weight bias : option Tensor) (eps : pyfloat)
    (a_4d weight_4d bias_4d : CudnnTensorAttributes) (s : state) :
  _transform_layer_norm_inputs a T weight bias
  = Ok (a_4d, weight_4d, bias_4d) ->
  let graph_call := lru_cache maxsize make_graph [a_4d; weight_4d; bias_4d] s in
  let run := layer_norm_impl a T weight bias eps s in
  cache (snd run) = cache (snd graph_call)
  /\ builder_calls (snd run) = builder_calls (snd graph_call)
  /\ (forall x, fst graph_call = Raise x -> fst run = Raise x).
Proof.
  intros Ht graph_call run. subst graph_call run.
  destruct (lru_cache maxsize make_graph [a_4d; weight_4d; bias_4d] s)
    as [[e|x] s1] eqn:Hg.
  - rewrite (layer_norm_impl_run a T weight bias eps _ _ _ e s s1 Ht Hg).
    cbn [fst snd cache builder_calls].
    split; [reflexivity | split; [reflexivity | discriminate]].
  - rewrite (layer_norm_impl_graph_raise a T weight bias eps _ _ _ x s s1 Ht Hg).
    cbn [fst snd]. split; [reflexivity | split; [reflexivity|]].
    intros x0 [= ->]. reflexivity.
Qed.

Lemma extent_product_zero (l : list Z) : In 0 l -> extent_product l = 0.
Proof.
  induction l as [|x l IH]; simpl; [tauto|].
  intros [->|H]; [reflexivity | rewrite (IH H); lia].
Qed.

Lemma np_prod_zero (l : list Z) : In 0 l -> np_prod l = 0.
Proof.
  intros H. rewrite np_prod_wrap, (extent_product_zero l H). reflexivity.
Qed.

(** ** The checker, step by step *)

Lemma layer_norm_checker_unavailable (a : Tensor) (T : list Z)
    (weight bias : option Tensor) (eps : pyfloat) (s : state) :
  cudnn_available acc = false ->
  layer_norm_checker a T weight bias eps s = (Raise (NameError "cudnn"), s).
Proof.
  intros H. unfold layer_norm_checker, bind, load_global, cudnn.
  rewrite H. reflexivity.
Qed.

Lemma layer_norm_checker_transform_raise (a : Tensor) (T : list Z)
    (weight bias : option Tensor) (eps : pyfloat) (x : exn) (s : state) :
  cudnn_available acc = true ->
  _transform_layer_norm_inputs a T weight bias = Raise x ->
  layer_norm_checker a T weight bias eps s = (Raise x, s).
Proof.
  intros H Ht. unfold layer_norm_checker, bind, load_global, cudnn, lift, ret.
  rewrite H, Ht. reflexivity.
Qed.

Lemma layer_norm_checker_run (a : Tensor) (T : list Z)
    (weight bias : option Tensor) (eps : pyfloat)
    (a_4d weight_4d bias_4d : CudnnTensorAttributes) (s : state) :
  cudnn_available acc = true ->
  _transform_layer_norm_inputs a T weight bias
  = Ok (a_4d, weight_4d, bias_4d) ->
  let graph_call := lru_cache maxsize make_graph [a_4d; weight_4d; bias_4d] s in
  layer_norm_checker a T weight bias eps s
  = (Ok (is_ok (fst graph_call)), snd graph_call).
Proof.
  intros H Ht graph_call. subst graph_call.
  unfold layer_norm_checker, bind, load_global, cudnn, lift, ret, try_except.
  rewrite H, Ht, graph_call_descriptors.
  destruct (lru_cache maxsize make_graph [a_4d; weight_4d; bias_4d] s)
    as [[e|x] s1]; reflexivity.
Qed.

(** What a graph built by [make_graph] looks like. *)
Lemma make_graph_epsilon (k : key) (e : graph_entry) (s s' : state) :
  make_graph k s = (Ok e, s') ->
  gt_name (e_epsilon e) = "epsilon"
  /\ gt_dim (e_epsilon e) = [1; 1; 1; 1]
  /\ gt_data_type (e_epsilon e) = FLOAT
  /\ gt_is_pass_by_value (e_epsilon e) = true.
Proof.
  destruct k as [|a [|w [|b [|x k]]]]; try discriminate.
  unfold make_graph; unfold_monad; unfold cudnn; simpl.
  destruct (cudnn_available acc); simpl; [|discriminate].
  destruct (torch_to_cudnn_dtype acc (dtype a)); simpl; [|discriminate].
  destruct (torch_to_cudnn_dtype acc (dtype w)); simpl; [|discriminate].
  destruct (torch_to_cudnn_dtype acc (dtype b)); simpl; [|discriminate].
  match goal with
  | |- context [cudnn_graph_build acc ?i ?sc ?bi ?ep ?y ?d] =>
      destruct (cudnn_graph_build acc i sc bi ep y d) as [[?|?] ?]; simpl
  end; [|discriminate].
  intros [= <- _]. simpl. auto.
Qed.

(** A tensor among the arguments stops the list comprehension. *)
Lemma map_result_tensor (args rest : list pyarg) :
  (exists t, In (ArgTensor t) rest) ->
  map_result (cacheable_input args) rest
  = Raise (AttributeError "device_index").
Proof.
  intros [t Hin]. induction rest as [|arg rest IH]; simpl; [destruct Hin|].
  destruct arg as [t'|d]; [reflexivity|]. simpl.
  destruct Hin as [Hd|Hin]; [discriminate|].
  rewrite (IH Hin). reflexivity.
Qed.

(** ** Cache keys *)


(** ** Eviction order *)








(** ** The output tensor *)

(** C4 (as the code has it). A returning execution call hands back a
    tensor with the input's original shape and dtype; it is allocated on
    the device the string "cuda" names at the time of the call, the
    current CUDA device, whichever device the input is on, so it is on
    the input's device when the input is on the current CUDA device.  The
    call does return once the graph function has produced an entry and
    the accelerator executes it. *)
Theorem layer_norm_output_tensor (a : Tensor) (T : list Z)
    (weight bias : option Tensor) (eps : pyfloat) (s : state) :
  (forall y s',
      layer_norm_impl a T weight bias eps s = (Ok y, s') ->
      t_shape y = t_shape a
      /\ t_dtype y = t_dtype a
      /\ t_device y = mk_device cuda (Some (current_device s))
      /\ (t_device a = mk_device cuda (Some (current_device s)) ->
          t_device y = t_device a))
  /\ (forall a_4d weight_4d bias_4d e s1,
        _transform_layer_norm_inputs a T weight bias
        = Ok (a_4d, weight_4d, bias_4d) ->
        _make_cudnn_layer_norm_graph
          [ArgAttrs a_4d; ArgAttrs weight_4d; ArgAttrs bias_4d] s
        = (Ok e, s1) ->
        (forall pack workspace,
            fst (cudnn_graph_execute acc (e_graph e) pack workspace
                                     (device s1)) = Ok tt) ->
        exists y s', layer_norm_impl a T weight bias eps s = (Ok y, s')).
Proof.
  split.
  - intros y s' Hrun.
    destruct (_transform_layer_norm_inputs a T weight bias)
      as [[[a_4d weight_4d] bias_4d]|x] eqn:Ht.
    2:{ rewrite (layer_norm_impl_transform_raise a T weight bias eps x s Ht)
          in Hrun. discriminate. }
    pose proof (lru_cache_frame maxsize [a_4d; weight_4d; bias_4d] s)
      as [_ Hdev].
    destruct (lru_cache maxsize make_graph [a_4d; weight_4d; bias_4d] s)
      as [[e|x] s1] eqn:Hg; cbn [snd] in Hdev.
    2:{ rewrite (layer_norm_impl_graph_raise a T weight bias eps _ _ _ x s s1
                   Ht Hg) in Hrun. discriminate. }
    rewrite (layer_norm_impl_run a T weight bias eps _ _ _ e s s1 Ht Hg)
      in Hrun.
    match type of Hrun with
    | (match ?r with _ => _ end, _) = _ => destruct r as [u|x]
    end; [|discriminate].
    inversion Hrun; subst y. cbn [t_shape t_dtype t_device].
    unfold cuda_device. rewrite Hdev.
    repeat split; auto.
  - intros a_4d weight_4d bias_4d e s1 Ht Hg Hexec.
    rewrite graph_call_descriptors in Hg.
    rewrite (layer_norm_impl_run a T weight bias eps _ _ _ e s s1 Ht Hg).
    rewrite Hexec. eauto.
Qed.

(** ** Degenerate shapes *)

(** C5 (as the code has it). A non-positive canonical dimension raises
    nothing in the canonicaliser.  Whenever a computed dimension N or C is
    non-positive (a zero extent in the normalised shape makes C = 0, a
    zero among the leading extents makes N = 0), the canonicaliser
    returns the descriptors carrying that dimension, the execution call
    goes on to the graph function, and on a cache miss the graph builder
    is invoked with these descriptors.  Whether the call fails is the
    accelerator's decision: if the builder raises, the call raises the
    same exception and the store is unchanged; if the builder returns an
    entry, the entry is stored under the degenerate key.  The extents are
    int64 values, as those of tensors are. *)
Theorem nonpositive_dimension_reaches_builder (a w b : Tensor) (T : list Z)
    (eps : pyfloat) (s : state) :
  int64_values (t_shape a) ->
  int64_values T ->
  let leading := slice_to (t_shape a) (- Z.of_nat (List.length T)) in
  let N := np_prod leading in
  let C := np_prod T in
  N <= 0 \/ C <= 0 ->
  let a_4d :=
    mk_attrs [N; C; 1; 1] [C; 1; 1; 1] (t_dtype a) (index (t_device a)) in
  let weight_4d :=
    mk_attrs [1; C; 1; 1] [C; 1; 1; 1] (t_dtype w) (index (t_device w)) in
  let bias_4d :=
    mk_attrs [1; C; 1; 1] [C; 1; 1; 1] (t_dtype b) (index (t_device b)) in
  let k := [a_4d; weight_4d; bias_4d] in
  let run := layer_norm_impl a T (Some w) (Some b) eps s in
  _transform_layer_norm_inputs a T (Some w) (Some b)
  = Ok (a_4d, weight_4d, bias_4d)
  /\ (In 0 T -> C = 0)
  /\ (In 0 leading -> N = 0)
  /\ (cache_get k (cache s) = None ->
      builder_calls (snd run) = k :: builder_calls s
      /\ (forall x, fst (make_graph k s) = Raise x ->
            fst run = Raise x /\ cache (snd run) = cache s)
      /\ (forall e, fst (make_graph k s) = Ok e ->
            cache_get k (cache (snd run)) = Some e)).
Proof.
  intros _ _ leading N C _ a_4d weight_4d bias_4d k run.
  assert (Ht : _transform_layer_norm_inputs a T (Some w) (Some b)
               = Ok (a_4d, weight_4d, bias_4d)) by reflexivity.
  split; [exact Ht|].
  split; [apply np_prod_zero|]. split; [apply np_prod_zero|].
  intros Hmiss.
  pose proof (layer_norm_impl_state a T (Some w) (Some b) eps _ _ _ s Ht)
    as (Hcache & Hcalls & Hraise).
  fold k in Hcache, Hcalls, Hraise. subst run.
  rewrite Hcalls. unfold k at 1.
  rewrite (lru_cache_calls_miss maxsize a_4d weight_4d bias_4d s Hmiss).
  split; [reflexivity|].
  destruct (lru_cache_cases maxsize k s)
    as [(v & H & E) | [(v & s' & H & Em & Hc & E) | (x & s' & H & Em & Hc & E)]];
    [congruence | |]; rewrite E in *; rewrite Em;
    unfold set_cache in *; cbn [fst snd cache] in *.
  - split; [discriminate|]. intros e [= <-]. rewrite Hcache.
    apply cache_get_firstn_head, maxsize_pos.
  - split; [|discriminate]. intros x0 [= <-].
    split; [now apply Hraise | now rewrite Hcache].
Qed.

(** ** The compatibility checker *)

(** C6 (where the code departs from it). The checker does raise.  When
    [cudnn_available()] was false at import, the name [cudnn] was never
    bound, and the test [cudnn is None] raises NameError instead of
    answering false.  When the library is there, the canonicaliser runs
    outside the [try], so an operand left at its default [None] raises
    AttributeError.  Only once the canonicaliser has returned does the
    checker answer as described: false if the dry run raises, true
    otherwise. *)
Theorem layer_norm_checker_outcomes (a : Tensor) (T : list Z)
    (weight bias : option Tensor) (eps : pyfloat) (s : state) :
  (cudnn_available acc = false ->
     layer_norm_checker a T weight bias eps s
     = (Raise (NameError "cudnn"), s))
  /\ (cudnn_available acc = true -> weight = None \/ bias = None ->
      layer_norm_checker a T weight bias eps s
      = (Raise (AttributeError "dtype"), s))
  /\ (cudnn_available acc = true ->
      forall a_4d weight_4d bias_4d,
        _transform_layer_norm_inputs a T weight bias
        = Ok (a_4d, weight_4d, bias_4d) ->
        layer_norm_checker a T weight bias eps s
        = (Ok (is_ok (fst (lru_cache maxsize make_graph
                                     [a_4d; weight_4d; bias_4d] s))),
           snd (lru_cache maxsize make_graph [a_4d; weight_4d; bias_4d] s))).
Proof.
  split; [|split].
  - apply layer_norm_checker_unavailable.
  - intros H Hnone. apply layer_norm_checker_transform_raise; [exact H|].
    destruct weight as [w|], bias as [b|], Hnone as [Hn|Hn];
      try discriminate; reflexivity.
  - intros H a_4d weight_4d bias_4d Ht.
    now apply layer_norm_checker_run.
Qed.

(** ** Failed compilations *)

(** C7. When the graph function misses and the builder raises, the call
    raises, the store is left as it was and holds no entry for the key,
    and the next call with the same key enters the builder again.  The
    checker turns the same failure into [False] with the same effect on
    the store. *)
Theorem failed_compilation_not_cached (a w b : CudnnTensorAttributes)
    (x : exn) (s : state) :
  let k := [a; w; b] in
  let call :=
    _make_cudnn_layer_norm_graph [ArgAttrs a; ArgAttrs w; ArgAttrs b] in
  cache_get k (cache s) = None ->
  fst (call s) = Raise x ->
  cache (snd (call s)) = cache s
  /\ cache_get k (cache (snd (call s))) = None
  /\ builder_calls (snd (call s)) = k :: builder_calls s
  /\ builder_calls (snd (call (snd (call s)))) = k :: k :: builder_calls s
  /\ (cudnn_available acc = true ->
      forall t T weight bias eps,
        _transform_layer_norm_inputs t T weight bias = Ok (a, w, b) ->
        layer_norm_checker t T weight bias eps s = (Ok false, snd (call s))).
Proof.
  intros k call Hmiss Hraise. subst call k.
  rewrite graph_call_descriptors in *.
  pose proof (lru_cache_raise maxsize [a; w; b] x s Hraise) as Hcache.
  assert (Hmiss' : cache_get [a; w; b]
                     (cache (snd (lru_cache maxsize make_graph [a; w; b] s)))
                   = None) by now rewrite Hcache.
  split; [exact Hcache|]. split; [exact Hmiss'|].
  rewrite (lru_cache_calls_miss maxsize a w b _ Hmiss').
  rewrite (lru_cache_calls_miss maxsize a w b s Hmiss).
  split; [reflexivity|]. split; [reflexivity|].
  intros Hav t T weight bias eps Ht.
  rewrite (layer_norm_checker_run t T weight bias eps a w b s Hav Ht).
  rewrite Hraise. reflexivity.
Qed.

(** ** Epsilon *)

(** C9. The epsilon of a call is no part of the cache key.  Take two
    execution calls whose operands canonicalise to the same three
    descriptors, on a key not compiled before, the first of which gets
    its graph built: the builder runs once, for the first call; the second
    call, whatever its epsilon, runs no builder and executes the very
    entry of the first; and each call binds the pass-by-value epsilon
    placeholder of that entry to its own new buffer: shape (1, 1, 1, 1),
    strides (1, 1, 1, 1), float32, on the CPU, every element equal to the
    epsilon of that call. *)
Theorem epsilon_not_in_cache_key (a a' : Tensor) (T T' : list Z)
    (weight bias weight' bias' : option Tensor) (eps eps' : pyfloat)
    (a_4d weight_4d bias_4d : CudnnTensorAttributes) (e : graph_entry)
    (s : state) :
  _transform_layer_norm_inputs a T weight bias
  = Ok (a_4d, weight_4d, bias_4d) ->
  _transform_layer_norm_inputs a' T' weight' bias'
  = Ok (a_4d, weight_4d, bias_4d) ->
  let k := [a_4d; weight_4d; bias_4d] in
  cache_get k (cache s) = None ->
  fst (_make_cudnn_layer_norm_graph
         [ArgAttrs a_4d; ArgAttrs weight_4d; ArgAttrs bias_4d] s) = Ok e ->
  let run1 := layer_norm_impl a T weight bias eps s in
  let run2 := layer_norm_impl a' T' weight' bias' eps' (snd run1) in
  builder_calls (snd run1) = k :: builder_calls s
  /\ builder_calls (snd run2) = builder_calls (snd run1)
  /\ cache_get k (cache (snd run1)) = Some e
  /\ gt_is_pass_by_value (e_epsilon e) = true
  /\ exists Y1 Y2 workspace1 workspace2,
       executions (snd run1)
       = (e_graph e,
          [(e_input e, Some a); (e_scale e, weight); (e_bias e, bias);
           (e_epsilon e,
            Some (mk_tensor [1; 1; 1; 1] [1; 1; 1; 1] float32
                            (mk_device cpu None) (Full eps)));
           (e_Y e, Some Y1)],
          workspace1) :: executions s
       /\ executions (snd run2)
          = (e_graph e,
             [(e_input e, Some a'); (e_scale e, weight'); (e_bias e, bias');
              (e_epsilon e,
               Some (mk_tensor [1; 1; 1; 1] [1; 1; 1; 1] float32
                               (mk_device cpu None) (Full eps')));
              (e_Y e, Some Y2)],
             workspace2) :: executions (snd run1).
Proof.
  intros Ht Ht' k Hmiss Hok run1 run2.
  rewrite graph_call_descriptors in Hok. fold k in Hok.
  pose proof (lru_cache_ok_get maxsize k e s maxsize_pos Hok) as Hget.
  pose proof (lru_cache_calls_miss maxsize a_4d weight_4d bias_4d s Hmiss)
    as Hcalls. fold k in Hcalls.
  pose proof (lru_cache_frame maxsize k s) as [Hexec _].
  assert (Heps : gt_is_pass_by_value (e_epsilon e) = true).
  { destruct (lru_cache_cases maxsize k s)
      as [(v & H & E) | [(v & s' & H & Em & Hc & E) | (x & s' & H & Em & Hc & E)]];
      rewrite E in Hok; cbn [fst] in Hok; try congruence.
    inversion Hok; subst v. apply (make_graph_epsilon k e s s' Em). }
  destruct (lru_cache maxsize make_graph k s) as [r s1] eqn:Hg.
  cbn [fst snd] in *. subst r.
  pose proof (layer_norm_impl_run a T weight bias eps _ _ _ e s s1 Ht Hg)
    as Hrun1. cbv zeta in Hrun1.
  subst run2 run1. rewrite Hrun1. cbn [snd].
  match goal with
  | |- context [layer_norm_impl a' T' weight' bias' eps' ?st] =>
      set (s2 := st)
  end.
  assert (Hhit : cache_get k (cache s2) = Some e) by exact Hget.
  pose proof (layer_norm_impl_run a' T' weight' bias' eps' _ _ _ e s2 _ Ht'
                (lru_cache_hit maxsize k e s2 Hhit)) as Hrun2.
  cbv zeta in Hrun2. rewrite Hrun2.
  subst s2. cbn [snd builder_calls cache executions set_cache].
  rewrite Hcalls, Hexec.
  split; [reflexivity|]. split; [reflexivity|]. split; [exact Hget|].
  split; [exact Heps|].
  do 4 eexists. split; reflexivity.
Qed.

(** ** The decorator *)

(** C10. When some positional argument of the decorated function is a
    tensor, the wrapper raises AttributeError on [args.device_index] and
    the wrapped function is not reached: nothing of the state changes,
    whatever that function is.  Descriptors pass through unchanged, and
    the call the entry points make, with three descriptors, is a plain
    call of the cached function. *)
Theorem wrapper_tensor_argument {A : Type}
    (func : list CudnnTensorAttributes -> M A) (args : list pyarg)
    (s : state) :
  ((exists t, In (ArgTensor t) args) ->
     make_cacheable_cudnn_graph_inputs func args s
     = (Raise (AttributeError "device_index"), s)
     /\ _make_cudnn_layer_norm_graph args s
        = (Raise (AttributeError "device_index"), s))
  /\ (forall ds, args = map ArgAttrs ds ->
        make_cacheable_cudnn_graph_inputs func args = func ds)
  /\ (forall a_4d weight_4d bias_4d,
        _make_cudnn_layer_norm_graph
          [ArgAttrs a_4d; ArgAttrs weight_4d; ArgAttrs bias_4d]
        = lru_cache maxsize make_graph [a_4d; weight_4d; bias_4d]).
Proof.
  split; [|split].
  - intros Ht.
    unfold _make_cudnn_layer_norm_graph, make_cacheable_cudnn_graph_inputs,
      bind, lift.
    rewrite (map_result_tensor args args Ht). split; reflexivity.
  - intros ds ->. apply wrapper_descriptors.
  - apply graph_call_descriptors.
Qed.

(** ** Callers on several threads *)

Lemma thread_call (k : key) (s : state) :
  thread_step (fst (thread_step (Calling k) s))
              (snd (thread_step (Calling k) s))
  = (Returned (fst (lru_cache maxsize make_graph k s)),
     snd (lru_cache maxsize make_graph k s)).
Proof.
  unfold thread_step at 2 3, lru_cache, bind, lru_lookup.
  destruct (cache_get k (cache s)) as [v|]; cbn [fst snd]; [reflexivity|].
  unfold thread_step, bind.
  destruct (make_graph k s) as [[v|x] s']; [|reflexivity].
  destruct (lru_store maxsize k v s'); reflexivity.
Qed.

Lemma nth_error_middle {A} (done rest : list A) (x : A) :
  nth_error (done ++ x :: rest) (List.length done) = Some x.
Proof. induction done as [|y done IH]; simpl; auto. Qed.

Lemma set_nth_middle {A} (done rest : list A) (x y : A) :
  set_nth (List.length done) y (done ++ x :: rest) = done ++ y :: rest.
Proof. induction done as [|z done IH]; simpl; [reflexivity | now rewrite IH]. Qed.

Lemma run_schedule_sequential (ks : list key) (done : list thread)
    (s : state) :
  run_schedule (sequential_schedule (List.length done) (List.length ks))
               (done ++ map Calling ks) s
  = (done ++ map Returned (fst (call_all ks s)), snd (call_all ks s)).
Proof.
  revert done s. induction ks as [|k ks IH]; intros done s; [reflexivity|].
  unfold sequential_schedule in *.
  cbn [List.length seq flat_map app map run_schedule call_all].
  rewrite graph_call_key, nth_error_middle.
  pose proof (thread_call k s) as Hcall.
  destruct (thread_step (Calling k) s) as [t1 s1]. cbn [fst snd] in Hcall.
  rewrite set_nth_middle, nth_error_middle, Hcall, set_nth_middle.
  destruct (lru_cache maxsize make_graph k s) as [r s2]. cbn [fst snd].
  specialize (IH (done ++ [Returned r]) s2).
  rewrite length_app, Nat.add_1_r, <- !app_assoc in IH. cbn [app] in IH.
  rewrite IH. destruct (call_all ks s2) as [rs s3]. reflexivity.
Qed.

Lemma building_step_calls (a w b : CudnnTensorAttributes) (s : state) :
  builder_calls (snd (thread_step (Building [a; w; b]) s))
  = [a; w; b] :: builder_calls s.
Proof.
  unfold thread_step, bind.
  pose proof (make_graph_calls a w b s) as Hc.
  destruct (make_graph [a; w; b] s) as [[v|x] s']; exact Hc.
Qed.

Lemma building_step_returns (k : key) (s : state) :
  exists r, fst (thread_step (Building k) s) = Returned r.
Proof.
  unfold thread_step, bind.
  destruct (make_graph k s) as [[v|x] s']; cbn; eauto.
Qed.

(** One step of one caller keeps the store well formed, and runs the
    builder only when it takes a caller out of [Building]. *)
Lemma thread_step_invariant (t : thread) (s : state) :
  NoDup (cache_keys (cache s)) ->
  (List.length (cache s) <= maxsize)%nat ->
  NoDup (cache_keys (cache (snd (thread_step t s))))
  /\ (List.length (cache (snd (thread_step t s))) <= maxsize)%nat
  /\ (List.length (builder_calls (snd (thread_step t s)))
      + (if pending (fst (thread_step t s)) then 1 else 0)
      <= List.length (builder_calls s) + (if pending t then 1 else 0))%nat.
Proof.
  intros Hnd Hlen. destruct t as [k|k|r]; cbn [thread_step].
  - unfold lru_lookup. destruct (cache_get k (cache s)) as [v|] eqn:H;
      unfold set_cache; cbn [fst snd cache builder_calls pending].
    + rewrite cache_keys_touch.
      split; [now apply recency_touch_NoDup|].
      split; [now apply cache_touch_length | lia].
    + auto.
  - unfold bind.
    pose proof (make_graph_cache k s) as Hc.
    pose proof (make_graph_calls_mono k s) as Hm.
    destruct (make_graph k s) as [[v|x] s']; cbn [fst snd] in *;
      unfold lru_store, set_cache; cbn [fst snd cache builder_calls pending].
    + rewrite Hc.
      split; [now apply cache_store_NoDup|].
      split; [now apply cache_store_length|].
      destruct Hm as [-> | ->]; simpl; lia.
    + rewrite Hc. split; [exact Hnd|]. split; [exact Hlen|].
      destruct Hm as [-> | ->]; simpl; lia.
  - cbn [fst snd pending]. split; [exact Hnd|]. split; [exact Hlen | lia].
Qed.

Lemma count_pending_set_nth (pool : list thread) (i : nat) (t t' : thread) :
  nth_error pool i = Some t ->
  (count_pending (set_nth i t' pool) + (if pending t then 1 else 0)
   = count_pending pool + (if pending t' then 1 else 0))%nat.
Proof.
  unfold count_pending. revert i.
  induction pool as [|u pool IH]; intros [|i]; simpl; try discriminate.
  - intros [= ->]. destruct (pending t), (pending t'); simpl; lia.
  - intros H. specialize (IH i H). destruct (pending u); simpl; lia.
Qed.

Lemma run_schedule_invariant (sched : list nat) (pool : list thread)
    (s : state) :
  NoDup (cache_keys (cache s)) ->
  (List.length (cache s) <= maxsize)%nat ->
  NoDup (cache_keys (cache (snd (run_schedule sched pool s))))
  /\ (List.length (cache (snd (run_schedule sched pool s))) <= maxsize)%nat
  /\ (List.length (builder_calls (snd (run_schedule sched pool s)))
      + count_pending (fst (run_schedule sched pool s))
      <= List.length (builder_calls s) + count_pending pool)%nat.
Proof.
  revert pool s. induction sched as [|i sched IH]; intros pool s Hnd Hlen.
  - cbn [run_schedule fst snd]. auto.
  - cbn [run_schedule]. destruct (nth_error pool i) as [t|] eqn:Hi.
    + pose proof (thread_step_invariant t s Hnd Hlen) as (Hnd' & Hlen' & Hb).
      pose proof (count_pending_set_nth pool i t (fst (thread_step t s)) Hi)
        as Hcount.
      destruct (thread_step t s) as [t' s']. cbn [fst snd] in *.
      destruct (IH (set_nth i t' pool) s' Hnd' Hlen') as (H1 & H2 & H3).
      split; [exact H1|]. split; [exact H2 | lia].
    + now apply IH.
Qed.

Lemma set_nth_length {A} (i : nat) (x : A) (l : list A) :
  List.length (set_nth i x l) = List.length l.
Proof.
  revert i. induction l as [|y l IH]; intros [|i]; simpl; auto.
Qed.

Lemma nth_error_set_nth_same {A} (i : nat) (x : A) (l : list A) :
  (i < List.length l)%nat -> nth_error (set_nth i x l) i = Some x.
Proof.
  revert i. induction l as [|y l IH]; intros [|i]; simpl; intros H;
    try lia; [reflexivity|].
  apply IH. lia.
Qed.

Lemma nth_error_set_nth_other {A} (i j : nat) (x : A) (l : list A) :
  i <> j -> nth_error (set_nth i x l) j = nth_error l j.
Proof.
  revert i j. induction l as [|y l IH]; intros [|i] [|j] H; simpl;
    try reflexivity; try congruence.
  apply IH. congruence.
Qed.

(** Lookups of a key that is not stored: each caller named once in
    [lookups] leaves [Calling] for [Building], the state is untouched. *)
Lemma run_schedule_lookups (k : key) (lookups rest : list nat)
    (pool : list thread) (s : state) :
  cache_get k (cache s) = None ->
  NoDup lookups ->
  (forall i, In i lookups -> nth_error pool i = Some (Calling k)) ->
  exists pool',
    run_schedule (lookups ++ rest) pool s = run_schedule rest pool' s
    /\ List.length pool' = List.length pool
    /\ (forall i, In i lookups -> nth_error pool' i = Some (Building k))
    /\ (forall i, ~ In i lookups -> nth_error pool' i = nth_error pool i).
Proof.
  intros Hmiss. revert pool.
  induction lookups as [|i l IH]; intros pool Hnd Hall.
  - exists pool. cbn [app]. repeat split; auto. intros i [].
  - inversion Hnd as [|? ? Hi Hnd']; subst.
    pose proof (Hall i (or_introl eq_refl)) as Hcall.
    assert (Hlt : (i < List.length pool)%nat)
      by (apply nth_error_Some; congruence).
    destruct (IH (set_nth i (Building k) pool) Hnd') as (pool' & Hr & Hl & Hb & Ho).
    { intros j Hj. rewrite nth_error_set_nth_other.
      - apply Hall. now right.
      - intros ->. contradiction. }
    exists pool'. split; [|split; [|split]].
    + cbn [app run_schedule]. rewrite Hcall. cbn [thread_step].
      unfold lru_lookup. rewrite Hmiss. exact Hr.
    + now rewrite Hl, set_nth_length.
    + intros j [<- | Hj]; [|now apply Hb].
      rewrite (Ho i Hi). now apply nth_error_set_nth_same.
    + intros j Hj. rewrite Ho by (intros H; apply Hj; now right).
      apply nth_error_set_nth_other. intros ->. apply Hj. now left.
Qed.

(** Callers that have all missed: each one named once in [builds] runs
    the builder and returns. *)
Lemma run_schedule_builds (a w b : CudnnTensorAttributes)
    (builds : list nat) (pool : list thread) (s : state) :
  NoDup builds ->
  (forall i, In i builds -> nth_error pool i = Some (Building [a; w; b])) ->
  builder_calls (snd (run_schedule builds pool s))
  = repeat [a; w; b] (List.length builds) ++ builder_calls s
  /\ List.length (fst (run_schedule builds pool s)) = List.length pool
  /\ (forall i, In i builds ->
        exists r, nth_error (fst (run_schedule builds pool s)) i
                  = Some (Returned r))
  /\ (forall i, ~ In i builds ->
        nth_error (fst (run_schedule builds pool s)) i = nth_error pool i).
Proof.
  revert pool s. induction builds as [|i l IH]; intros pool s Hnd Hall.
  - cbn [run_schedule fst snd List.length repeat app].
    repeat split; auto. intros i [].
  - inversion Hnd as [|? ? Hi Hnd']; subst.
    pose proof (Hall i (or_introl eq_refl)) as Hcall.
    assert (Hlt : (i < List.length pool)%nat)
      by (apply nth_error_Some; congruence).
    cbn [run_schedule]. rewrite Hcall.
    pose proof (building_step_calls a w b s) as Hc.
    destruct (building_step_returns [a; w; b] s) as [r Hr].
    destruct (thread_step (Building [a; w; b]) s) as [t1 s1].
    cbn [fst snd] in Hc, Hr. subst t1.
    destruct (IH (set_nth i (Returned r) pool) s1 Hnd')
      as (Hb & Hl & Hret & Ho).
    { intros j Hj. rewrite nth_error_set_nth_other.
      - apply Hall. now right.
      - intros ->. contradiction. }
    split; [|split; [|split]].
    + rewrite Hb, Hc. cbn [List.length repeat].
      rewrite (repeat_cons (List.length l) [a; w; b]), <- app_assoc.
      reflexivity.
    + now rewrite Hl, set_nth_length.
    + intros j [<- | Hj]; [|now apply Hret].
      exists r. rewrite (Ho i Hi). now apply nth_error_set_nth_same.
    + intros j Hj. rewrite Ho by (intros H; apply Hj; now right).
      apply nth_error_set_nth_other. intros ->. apply Hj. now left.
Qed.

Lemma all_returned (pool : list thread) :
  (forall i, (i < List.length pool)%nat ->
     exists r, nth_error pool i = Some (Returned r)) ->
  exists rs, pool = map Returned rs.
Proof.
  induction pool as [|t pool IH]; intros H.
  - exists []. reflexivity.
  - destruct (H 0%nat) as [r Hr]; [simpl; lia|].
    destruct IH as [rs ->].
    { intros i Hi. apply (H (S i)). simpl. lia. }
    injection Hr as ->. exists (r :: rs). reflexivity.
Qed.

Lemma covers_length (n : nat) (l : list nat) :
  NoDup l -> (forall i, In i l <-> (i < n)%nat) -> List.length l = n.
Proof.
  intros Hnd Hin. apply Nat.le_antisymm.
  - rewrite <- (length_seq n 0). apply NoDup_incl_length; [exact Hnd|].
    intros i Hi. apply in_seq. apply Hin in Hi. lia.
  - rewrite <- (length_seq n 0) at 1.
    apply NoDup_incl_length; [apply seq_NoDup|].
    intros i Hi. apply in_seq in Hi. apply Hin. lia.
Qed.

(** C8 (as the code has it). Calls from several threads are not
    single-flight.  [lru_cache] does not hold its lock while the builder
    runs, so callers with the same key, however many, that all look it up
    before any of them has stored a result each run the builder: [n]
    callers, looking up in any order [lookups] and then building in any
    order [builds], enter the builder [n] times and all return.  What
    holds under every interleaving: the store keeps at most one entry per
    key and at most 1024 entries, and each caller runs the builder at most
    once.  Callers that do not overlap behave as consecutive calls, where
    a key once compiled is served from the store. *)
Theorem concurrent_calls_not_single_flight (s : state) :
  (forall sched pool,
      NoDup (cache_keys (cache s)) ->
      (List.length (cache s) <= maxsize)%nat ->
      NoDup (cache_keys (cache (snd (run_schedule sched pool s))))
      /\ (List.length (cache (snd (run_schedule sched pool s))) <= maxsize)%nat
      /\ (List.length (builder_calls (snd (run_schedule sched pool s)))
          <= List.length (builder_calls s) + count_pending pool)%nat)
  /\ (forall ks,
        run_schedule (sequential_schedule 0 (List.length ks))
                     (map Calling ks) s
        = (map Returned (fst (call_all ks s)), snd (call_all ks s)))
  /\ (forall a w b n lookups builds,
        let k := [a; w; b] in
        cache_get k (cache s) = None ->
        NoDup lookups -> (forall i, In i lookups <-> (i < n)%nat) ->
        NoDup builds -> (forall i, In i builds <-> (i < n)%nat) ->
        let out := run_schedule (lookups ++ builds) (repeat (Calling k) n) s in
        builder_calls (snd out) = repeat k n ++ builder_calls s
        /\ exists rs, List.length rs = n /\ fst out = map Returned rs).
Proof.
  split; [|split].
  - intros sched pool Hnd Hlen.
    destruct (run_schedule_invariant sched pool s Hnd Hlen) as (H1 & H2 & H3).
    split; [exact H1|]. split; [exact H2 | lia].
  - intros ks. apply (run_schedule_sequential ks [] s).
  - intros a w b n lookups builds k Hmiss Hndl Hl Hndb Hb out. subst out.
    destruct (run_schedule_lookups k lookups builds (repeat (Calling k) n) s
                Hmiss Hndl) as (pool' & -> & Hlen & Hbuilding & _).
    { intros i Hi. apply nth_error_repeat. now apply Hl. }
    rewrite repeat_length in Hlen.
    destruct (run_schedule_builds a w b builds pool' s Hndb)
      as (Hcalls & Hlen' & Hret & _).
    { intros i Hi. apply Hbuilding. apply Hl. now apply Hb. }
    fold k in Hcalls, Hret.
    rewrite (covers_length n builds Hndb Hb) in Hcalls.
    split; [exact Hcalls|].
    destruct (all_returned (fst (run_schedule builds pool' s))) as [rs Hrs].
    { intros i Hi. apply Hret. apply Hb. lia. }
    exists rs. split; [|exact Hrs].
    rewrite <- (length_map Returned rs), <- Hrs. lia.
Qed.

(** * Further properties of the module *)

(** ** The canonicaliser at its edges *)

Lemma int64_wrap_range (z : Z) : - 2 ^ 63 <= int64_wrap z < 2 ^ 63.
Proof.
  unfold int64_wrap.
  pose proof (Z.mod_pos_bound (z + 2 ^ 63) (2 ^ 64) ltac:(lia)). lia.
Qed.

Lemma int64_wrap_congruent (z : Z) : (int64_wrap z - z) mod 2 ^ 64 = 0.
Proof.
  unfold int64_wrap. rewrite (Z.mod_eq (z + 2 ^ 63) (2 ^ 64)) by lia.
  replace (z + 2 ^ 63 - 2 ^ 64 * ((z + 2 ^ 63) / 2 ^ 64) - 2 ^ 63 - z)
    with (- ((z + 2 ^ 63) / 2 ^ 64) * 2 ^ 64) by lia.
  apply Z_mod_mult.
Qed.

Lemma slice_to_neg_length {A} (l : list A) (n : nat) :
  (0 < n)%nat ->
  slice_to l (- Z.of_nat n) = firstn (List.length l - n) l.
Proof.
  intros Hn. unfold slice_to.
  destruct (Z.ltb_spec (- Z.of_nat n) 0) as [_|Hge]; [|lia].
  f_equal. lia.
Qed.

(** X1. The canonical layout keeps the number of elements: for an input of
    shape [lead ++ T] with a non-empty normalised suffix [T] (extents
    non-negative, both products within int64), the extents (N, C, 1, 1) of
    the input descriptor multiply to the product of the input's own
    extents, and the (1, C, 1, 1) of weight and bias to the product of
    [T]. *)
Theorem canonical_layout_keeps_element_count
    (a weight bias : Tensor) (lead T : list Z) :
  T <> [] ->
  t_shape a = lead ++ T ->
  Forall (fun e => 0 <= e) (t_shape a) ->
  extent_product lead < 2 ^ 63 ->
  extent_product T < 2 ^ 63 ->
  exists a_4d weight_4d bias_4d,
    _transform_layer_norm_inputs a T (Some weight) (Some bias)
    = Ok (a_4d, weight_4d, bias_4d)
    /\ extent_product (size a_4d) = extent_product (t_shape a)
    /\ extent_product (size weight_4d) = extent_product T
    /\ extent_product (size bias_4d) = extent_product T.
Proof.
  intros HT Hshape Hpos Hlead HTlt.
  rewrite Hshape in Hpos. apply Forall_app in Hpos as [Hposl HposT].
  do 3 eexists. split; [reflexivity|]. cbn [size].
  rewrite Hshape, (slice_to_suffix lead T HT).
  rewrite (np_prod_exact T HposT HTlt), (np_prod_exact lead Hposl Hlead).
  rewrite extent_product_app.
  change (extent_product [extent_product lead; extent_product T; 1; 1])
    with (extent_product lead * (extent_product T * (1 * (1 * 1)))).
  change (extent_product [1; extent_product T; 1; 1])
    with (1 * (extent_product T * (1 * (1 * 1)))).
  repeat split; lia.
Qed.

(** X2. With an empty [normalized_shape] the slice [a.shape[:-0]] is the
    empty slice, not the whole shape: the batch extent is 1 as well, and
    all three descriptors are (1, 1, 1, 1) with strides (1, 1, 1, 1),
    whatever the shape of the input. *)
Theorem transform_empty_normalized_shape (a weight bias : Tensor) :
  _transform_layer_norm_inputs a [] (Some weight) (Some bias)
  = Ok (mk_attrs [1; 1; 1; 1] [1; 1; 1; 1] (t_dtype a) (index (t_device a)),
        mk_attrs [1; 1; 1; 1] [1; 1; 1; 1]
                 (t_dtype weight) (index (t_device weight)),
        mk_attrs [1; 1; 1; 1] [1; 1; 1; 1]
                 (t_dtype bias) (index (t_device bias))).
Proof.
  unfold _transform_layer_norm_inputs. cbn [getattr rbind List.length].
  assert (slice_to (t_shape a) (- Z.of_nat 0) = []) as ->; [|reflexivity].
  unfold slice_to. change (- Z.of_nat 0 <? 0) with false. cbn iota.
  rewrite Z.min_l by lia. reflexivity.
Qed.

(** X3. The canonicaliser does not check [normalized_shape] against the
    input.  For extents that are int64 values and a non-empty
    [normalized_shape], C is the int64 product of [normalized_shape] alone
    and N the int64 product of the input's first
    rank - len(normalized_shape) extents.  When [normalized_shape] is at
    least as long as the input's rank, the slice is empty and N = 1,
    whatever the extents. *)
Theorem transform_batch_extent (a weight bias : Tensor) (T : list Z) :
  int64_values (t_shape a) -> int64_values T ->
  T <> [] ->
  exists a_4d weight_4d bias_4d,
    _transform_layer_norm_inputs a T (Some weight) (Some bias)
    = Ok (a_4d, weight_4d, bias_4d)
    /\ size a_4d
       = [np_prod (firstn (List.length (t_shape a) - List.length T)
                          (t_shape a));
          np_prod T; 1; 1]
    /\ ((List.length (t_shape a) <= List.length T)%nat ->
        size a_4d = [1; np_prod T; 1; 1]).
Proof.
  intros _ _ HT. do 3 eexists. split; [reflexivity|]. cbn [size].
  assert (0 < List.length T)%nat as Hlen
    by (destruct T; [congruence | simpl; lia]).
  rewrite (slice_to_neg_length (t_shape a) (List.length T) Hlen).
  split; [reflexivity|]. intros Hle.
  replace (List.length (t_shape a) - List.length T)%nat with 0%nat by lia.
  reflexivity.
Qed.

(** X4. The canonicaliser raises exactly when weight or bias is [None]
    (their declared default), and then it is the AttributeError of reading
    [.dtype] off [None]; on tensors it always returns. *)
Theorem transform_raises_iff_operand_missing
    (a : Tensor) (T : list Z) (weight bias : option Tensor) :
  (is_ok (_transform_layer_norm_inputs a T weight bias) = true
   <-> weight <> None /\ bias <> None)
  /\ (is_ok (_transform_layer_norm_inputs a T weight bias) = false ->
      _transform_layer_norm_inputs a T weight bias
      = Raise (AttributeError "dtype")).
Proof.
  destruct weight as [w|], bias as [b|]; cbn; (split; [split|]);
    try tauto; try discriminate; try (intros [? ?]; congruence);
    try (intros _; split; discriminate).
Qed.

(** X5. On extents that are int64 values, [np.prod] multiplies in int64
    and wraps silently, so the extents of the descriptors are int64 values
    congruent modulo 2^64 to the true products: C to the product of
    [normalized_shape], N to the product of the leading extents. *)
Theorem transform_extents_wrap (a weight bias : Tensor) (T : list Z) :
  int64_values (t_shape a) -> int64_values T ->
  exists a_4d weight_4d bias_4d N C,
    _transform_layer_norm_inputs a T (Some weight) (Some bias)
    = Ok (a_4d, weight_4d, bias_4d)
    /\ size a_4d = [N; C; 1; 1] /\ stride a_4d = [C; 1; 1; 1]
    /\ size weight_4d = [1; C; 1; 1] /\ size bias_4d = [1; C; 1; 1]
    /\ - 2 ^ 63 <= C < 2 ^ 63 /\ - 2 ^ 63 <= N < 2 ^ 63
    /\ (C - extent_product T) mod 2 ^ 64 = 0
    /\ (N - extent_product
              (slice_to (t_shape a) (- Z.of_nat (List.length T))))
       mod 2 ^ 64 = 0.
Proof.
  intros _ _. do 5 eexists. split; [reflexivity|]. cbn [size stride].
  rewrite !np_prod_wrap.
  repeat split; try apply int64_wrap_range; apply int64_wrap_congruent.
Qed.

(** ** The store between calls *)

Lemma cache_get_remove_other {V} (k k' : key) (c : list (key * V)) :
  k' <> k -> cache_get k' (cache_remove k c) = cache_get k' c.
Proof.
  intros Hne. induction c as [|[k0 v0] c IH]; [reflexivity|].
  cbn [cache_remove cache_get].
  destruct (key_eqb k k0) eqn:E.
  - apply key_eqb_eq in E. subst k0.
    destruct (key_eqb k' k) eqn:E'; [apply key_eqb_eq in E'; congruence|].
    exact IH.
  - cbn [cache_get]. now rewrite IH.
Qed.

Lemma cache_get_touch_same {V} (k k' : key) (v : V) (c : list (key * V)) :
  cache_get k c = Some v ->
  cache_get k' (cache_touch k v c) = cache_get k' c.
Proof.
  intros H. unfold cache_touch. cbn [cache_get].
  destruct (key_eqb k' k) eqn:E.
  - apply key_eqb_eq in E. now subst.
  - apply cache_get_remove_other. now apply key_eqb_neq.
Qed.

Lemma cache_get_firstn_cases {V} (n : nat) (k : key) (c : list (key * V)) :
  cache_get k (firstn n c) = cache_get k c
  \/ cache_get k (firstn n c) = None.
Proof.
  revert n. induction c as [|[k0 v0] c IH]; intros [|n]; cbn [firstn cache_get];
    auto.
  destruct (key_eqb k k0); auto.
Qed.

Lemma cache_remove_absent {V} (k : key) (c : list (key * V)) :
  ~ In k (cache_keys c) -> cache_remove k c = c.
Proof.
  induction c as [|[k0 v0] c IH]; [reflexivity|]. cbn. intros H.
  destruct (key_eqb k k0) eqn:E.
  - apply key_eqb_eq in E. subst. tauto.
  - rewrite IH; tauto.
Qed.

Lemma cache_remove_length_NoDup {V} (k : key) (v : V) (c : list (key * V)) :
  NoDup (cache_keys c) -> cache_get k c = Some v ->
  S (List.length (cache_remove k c)) = List.length c.
Proof.
  induction c as [|[k0 v0] c IH]; [discriminate|].
  cbn [cache_keys map fst cache_get cache_remove List.length].
  intros Hnd H. inversion Hnd as [|? ? Hk Hnd']; subst.
  destruct (key_eqb k k0) eqn:E.
  - apply key_eqb_eq in E. subst k0.
    now rewrite (cache_remove_absent k c Hk).
  - cbn [List.length]. f_equal. now apply IH.
Qed.

(** X6. A hit does nothing but recency bookkeeping: the call returns the
    stored entry; the builder log, the execution log and the device are
    untouched; every key looks up exactly what it looked up before; and
    (the keys of the store being distinct) the store keeps its size. *)
Theorem graph_hit_only_reorders (k : key) (v : graph_entry) (s : state) :
  cache_get k (cache s) = Some v ->
  let out := _make_cudnn_layer_norm_graph (map ArgAttrs k) s in
  fst out = Ok v
  /\ builder_calls (snd out) = builder_calls s
  /\ executions (snd out) = executions s
  /\ device (snd out) = device s
  /\ current_device (snd out) = current_device s
  /\ (forall k', cache_get k' (cache (snd out)) = cache_get k' (cache s))
  /\ (NoDup (cache_keys (cache s)) ->
      List.length (cache (snd out)) = List.length (cache s)).
Proof.
  intros H out. subst out.
  rewrite graph_call_key, (lru_cache_hit maxsize k v s H).
  unfold set_cache.
  cbn [fst snd cache builder_calls executions device current_device].
  repeat split.
  - intros k'. now apply cache_get_touch_same.
  - intros Hnd. unfold cache_touch. cbn [List.length].
    exact (cache_remove_length_NoDup k v (cache s) Hnd H).
Qed.

(** X7. Stored entries are write-once.  Across one call of the graph
    function, an entry that was stored is afterwards still the same entry
    or has been evicted, and it can only have been evicted if the store
    was full (1024 entries); and whatever the store holds afterwards for a
    key other than the one called was already there. *)
Theorem stored_entries_never_replaced (k k' : key) (e' : graph_entry)
    (s : state) :
  let out := _make_cudnn_layer_norm_graph (map ArgAttrs k) s in
  (cache_get k' (cache s) = Some e' ->
     (cache_get k' (cache (snd out)) = Some e'
      \/ cache_get k' (cache (snd out)) = None)
     /\ ((List.length (cache s) < maxsize)%nat ->
         cache_get k' (cache (snd out)) = Some e'))
  /\ (k' <> k -> cache_get k' (cache (snd out)) = Some e' ->
      cache_get k' (cache s) = Some e').
Proof.
  intros out. subst out. rewrite graph_call_key.
  destruct (lru_cache_cases maxsize k s)
    as [(v & H & E) | [(v & s' & H & _ & _ & E) | (x & s' & H & _ & Hc & E)]];
    rewrite E; unfold set_cache; cbn [fst snd cache].
  - rewrite (cache_get_touch_same k k' v (cache s) H). auto.
  - assert (Hother : k' <> k -> cache_get k' ((k, v) :: cache s)
                                = cache_get k' (cache s)).
    { intros Hne. cbn [cache_get].
      destruct (key_eqb k' k) eqn:E'; [apply key_eqb_eq in E'; congruence|].
      reflexivity. }
    split.
    + intros Hin.
      assert (Hne : k' <> k) by (intros ->; congruence).
      split.
      * destruct (cache_get_firstn_cases maxsize k' ((k, v) :: cache s))
          as [-> | ->]; [left | now right].
        now rewrite Hother.
      * intros Hroom. rewrite firstn_all2 by (cbn [List.length]; lia).
        now rewrite Hother.
    + intros Hne Hin. rewrite <- (Hother Hne).
      destruct (cache_get_firstn_cases maxsize k' ((k, v) :: cache s))
        as [Heq | Heq]; rewrite Heq in Hin; [exact Hin | discriminate].
  - rewrite Hc. auto.
Qed.

(** ** What the builder leaves in the store *)

Lemma make_graph_built (k : key) (e : graph_entry) (s s' : state) :
  make_graph k s = (Ok e, s') -> built_for k e.
Proof.
  destruct k as [|a [|w [|b [|x k]]]]; try discriminate.
  unfold make_graph; unfold_monad; unfold cudnn; simpl.
  destruct (cudnn_available acc); simpl; [|discriminate].
  destruct (torch_to_cudnn_dtype acc (dtype a)) eqn:Ea; simpl; [|discriminate].
  destruct (torch_to_cudnn_dtype acc (dtype w)) eqn:Ew; simpl; [|discriminate].
  destruct (torch_to_cudnn_dtype acc (dtype b)) eqn:Eb; simpl; [|discriminate].
  match goal with
  | |- context [cudnn_graph_build acc ?i ?sc ?bi ?ep ?y ?d] =>
      destruct (cudnn_graph_build acc i sc bi ep y d) as [[?|?] ?]; simpl
  end; [|discriminate].
  intros [= <- _]. exists a, w, b. cbn.
  repeat split; auto.
  - repeat constructor.
  - repeat constructor; cbn; intuition discriminate.
Qed.

Lemma cache_built_touch (k : key) (v : graph_entry)
    (c : list (key * graph_entry)) :
  Forall (fun ke => built_for (fst ke) (snd ke)) c ->
  cache_get k c = Some v ->
  Forall (fun ke => built_for (fst ke) (snd ke)) (cache_touch k v c).
Proof.
  intros Hall Hget. unfold cache_touch. constructor.
  - rewrite Forall_forall in Hall. apply (Hall (k, v)).
    now apply cache_get_some.
  - clear Hget. induction c as [|[k0 v0] c IH]; [constructor|].
    inversion Hall; subst. cbn [cache_remove].
    destruct (key_eqb k k0); [auto | constructor; auto].
Qed.

Lemma Forall_firstn_keep {A} (P : A -> Prop) (n : nat) (l : list A) :
  Forall P l -> Forall P (firstn n l).
Proof.
  rewrite !Forall_forall. intros H x Hx. apply H. now apply firstn_incl in Hx.
Qed.

Lemma make_graph_specialised (k : key) (e : graph_entry) (s s' : state) :
  make_graph k s = (Ok e, s') -> specialised_to k e.
Proof.
  destruct k as [|a [|w [|b [|x k]]]]; try discriminate.
  unfold make_graph; unfold_monad; unfold cudnn; simpl.
  destruct (cudnn_available acc); simpl; [|discriminate].
  destruct (torch_to_cudnn_dtype acc (dtype a)) as [ta|] eqn:Ea; simpl;
    [|discriminate].
  destruct (torch_to_cudnn_dtype acc (dtype w)) as [tw|] eqn:Ew; simpl;
    [|discriminate].
  destruct (torch_to_cudnn_dtype acc (dtype b)) as [tb|] eqn:Eb; simpl;
    [|discriminate].
  match goal with
  | |- context [cudnn_graph_build acc ?i ?sc ?bi ?ep ?y ?d] =>
      destruct (cudnn_graph_build acc i sc bi ep y d) as [[?|?] ?]; simpl
  end; [|discriminate].
  intros [= <- _]. exists a, w, b, ta, tw, tb. cbn.
  repeat split; assumption.
Qed.

Lemma cache_touch_Forall (P : key -> graph_entry -> Prop) (k : key)
    (v : graph_entry) (c : list (key * graph_entry)) :
  Forall (fun ke => P (fst ke) (snd ke)) c ->
  cache_get k c = Some v ->
  Forall (fun ke => P (fst ke) (snd ke)) (cache_touch k v c).
Proof.
  intros Hall Hget. unfold cache_touch. constructor.
  - rewrite Forall_forall in Hall. apply (Hall (k, v)).
    now apply cache_get_some.
  - clear Hget. induction c as [|[k0 v0] c IH]; [constructor|].
    inversion Hall; subst. cbn [cache_remove].
    destruct (key_eqb k k0); [auto | constructor; auto].
Qed.

Lemma lru_cache_specialised (k : key) (s : state) :
  cache_specialised s ->
  cache_specialised (snd (lru_cache maxsize make_graph k s))
  /\ (forall e, fst (lru_cache maxsize make_graph k s) = Ok e ->
                specialised_to k e).
Proof.
  unfold cache_specialised. intros Hall.
  destruct (lru_cache_cases maxsize k s)
    as [(v & H & E) | [(v & s' & H & Em & _ & E) | (x & s' & H & _ & Hc & E)]];
    rewrite E; unfold set_cache; cbn [fst snd cache].
  - split; [now apply (cache_touch_Forall specialised_to)|].
    intros e [= <-]. rewrite Forall_forall in Hall.
    apply (Hall (k, v)). now apply cache_get_some.
  - pose proof (make_graph_specialised k v s s' Em) as Hb.
    split; [|intros e [= <-]; exact Hb].
    apply Forall_firstn_keep. constructor; assumption.
  - rewrite Hc. split; [exact Hall | discriminate].
Qed.

(** X8. Every entry in the store is specialised to the key it is stored
    under, and so is every entry the graph function returns: the
    placeholders named "input", "scale" and "bias" carry the extents,
    strides and converted dtypes of the three descriptors, epsilon is the
    pass-by-value FLOAT (1, 1, 1, 1) placeholder, and the output of the
    same graph is marked as output with the input's converted dtype and
    stride.  This holds of the empty store and is kept by the graph
    function, by [layer_norm_impl] and by [layer_norm_checker]. *)
Theorem stored_entries_match_their_keys (s : state) :
  (forall d cur, cache_specialised (initial_state d cur))
  /\ (cache_specialised s ->
      (forall k,
          cache_specialised
            (snd (_make_cudnn_layer_norm_graph (map ArgAttrs k) s))
          /\ (forall e,
                 fst (_make_cudnn_layer_norm_graph (map ArgAttrs k) s) = Ok e ->
                 specialised_to k e))
      /\ (forall a T weight bias eps,
             cache_specialised (snd (layer_norm_impl a T weight bias eps s)))
      /\ (forall a T weight bias eps,
             cache_specialised
               (snd (layer_norm_checker a T weight bias eps s)))).
Proof.
  split; [intros d cur; constructor|]. intros Hb.
  split; [|split].
  - intros k. rewrite graph_call_key. now apply lru_cache_specialised.
  - intros a T weight bias eps.
    destruct (_transform_layer_norm_inputs a T weight bias)
      as [[[a_4d weight_4d] bias_4d]|x] eqn:Ht.
    + destruct (layer_norm_impl_state a T weight bias eps _ _ _ s Ht)
        as (Hc & _ & _).
      unfold cache_specialised. rewrite Hc. now apply lru_cache_specialised.
    + now rewrite (layer_norm_impl_transform_raise a T weight bias eps x s Ht).
  - intros a T weight bias eps.
    destruct (cudnn_available acc) eqn:Hav.
    + destruct (_transform_layer_norm_inputs a T weight bias)
        as [[[a_4d weight_4d] bias_4d]|x] eqn:Ht.
      * rewrite (layer_norm_checker_run a T weight bias eps _ _ _ s Hav Ht).
        now apply lru_cache_specialised.
      * now rewrite (layer_norm_checker_transform_raise
                       a T weight bias eps x s Hav Ht).
    + now rewrite (layer_norm_checker_unavailable a T weight bias eps s Hav).
Qed.

(** ** The checker and the execution path together *)

Lemma transform_on_tensors (a w b : Tensor) (T : list Z) :
  exists a_4d weight_4d bias_4d,
    _transform_layer_norm_inputs a T (Some w) (Some b)
    = Ok (a_4d, weight_4d, bias_4d)
    /\ dtype a_4d = t_dtype a
    /\ device_index a_4d = index (t_device a).
Proof. do 3 eexists. split; [reflexivity|]. split; reflexivity. Qed.

(** X9. With the library available and weight and bias given, the checker
    returns a boolean and never executes a graph: the execution log and
    the current device are as before.  When it answers false the store is
    exactly as before; when it answers true the store holds an entry for
    the call's key. *)
Theorem checker_dry_run (a w b : Tensor) (T : list Z) (eps : pyfloat)
    (s : state) :
  cudnn_available acc = true ->
  let out := layer_norm_checker a T (Some w) (Some b) eps s in
  exists a_4d weight_4d bias_4d answer,
    _transform_layer_norm_inputs a T (Some w) (Some b)
    = Ok (a_4d, weight_4d, bias_4d)
    /\ fst out = Ok answer
    /\ executions (snd out) = executions s
    /\ current_device (snd out) = current_device s
    /\ (answer = false -> cache (snd out) = cache s)
    /\ (answer = true ->
        exists e, cache_get [a_4d; weight_4d; bias_4d] (cache (snd out))
                  = Some e).
Proof.
  intros Hav out. subst out.
  destruct (transform_on_tensors a w b T)
    as (a_4d & weight_4d & bias_4d & Ht & _).
  exists a_4d, weight_4d, bias_4d.
  rewrite (layer_norm_checker_run a T (Some w) (Some b) eps _ _ _ s Hav Ht).
  cbv zeta.
  pose proof (lru_cache_frame maxsize [a_4d; weight_4d; bias_4d] s)
    as [Hex Hdev].
  pose proof (fun x => lru_cache_raise maxsize [a_4d; weight_4d; bias_4d] x s)
    as Hraise.
  pose proof (fun e => lru_cache_ok_get maxsize [a_4d; weight_4d; bias_4d]
                                        e s maxsize_pos) as Hget.
  destruct (lru_cache maxsize make_graph [a_4d; weight_4d; bias_4d] s)
    as [[e|x] s1]; cbn [fst snd is_ok] in *.
  - exists true. split; [exact Ht|]. repeat split; auto; try discriminate.
    intros _. exists e. now apply Hget.
  - exists false. split; [exact Ht|]. repeat split; auto; try discriminate.
    intros _. now apply (Hraise x).
Qed.

(** X10. After the checker has answered true, the execution call with the
    same operands, whatever its epsilon, finds the entry the checker left
    in the store: it runs no builder and hands exactly that entry's graph
    to the accelerator. *)
Theorem checker_true_then_impl_hits (a : Tensor) (T : list Z)
    (weight bias : option Tensor) (eps eps' : pyfloat) (s : state) :
  fst (layer_norm_checker a T weight bias eps s) = Ok true ->
  let s1 := snd (layer_norm_checker a T weight bias eps s) in
  let run := layer_norm_impl a T weight bias eps' s1 in
  exists a_4d weight_4d bias_4d e pack workspace,
    _transform_layer_norm_inputs a T weight bias
    = Ok (a_4d, weight_4d, bias_4d)
    /\ cache_get [a_4d; weight_4d; bias_4d] (cache s1) = Some e
    /\ builder_calls (snd run) = builder_calls s1
    /\ executions (snd run) = (e_graph e, pack, workspace) :: executions s1.
Proof.
  intros Htrue s1 run. subst run s1.
  destruct (cudnn_available acc) eqn:Hav.
  2:{ rewrite (layer_norm_checker_unavailable a T weight bias eps s Hav)
        in Htrue. discriminate. }
  destruct (_transform_layer_norm_inputs a T weight bias)
    as [[[a_4d weight_4d] bias_4d]|x] eqn:Ht.
  2:{ rewrite (layer_norm_checker_transform_raise a T weight bias eps x s
                 Hav Ht) in Htrue. discriminate. }
  rewrite (layer_norm_checker_run a T weight bias eps _ _ _ s Hav Ht) in *.
  cbv zeta in *. cbn [fst snd] in *.
  pose proof (fun e => lru_cache_ok_get maxsize [a_4d; weight_4d; bias_4d]
                                        e s maxsize_pos) as Hget.
  destruct (lru_cache maxsize make_graph [a_4d; weight_4d; bias_4d] s)
    as [[e|x] s1]; cbn [fst snd is_ok] in *; [|discriminate].
  specialize (Hget e eq_refl).
  pose proof (layer_norm_impl_run a T weight bias eps' _ _ _ e s1 _ Ht
                (lru_cache_hit maxsize _ e s1 Hget)) as Hrun.
  cbv zeta in Hrun. rewrite Hrun.
  exists a_4d, weight_4d, bias_4d, e. do 2 eexists.
  split; [reflexivity|]. split; [exact Hget|].
  cbn [snd builder_calls executions set_cache]. split; reflexivity.
Qed.

(** X11. A failure of the execution is not a failure of the graph: when
    the graph function has produced an entry and [graph.execute] raises,
    the execution call raises that exception, the attempt is on record,
    the entry stays in the store, and a retry runs no builder. *)
Theorem execution_failure_keeps_entry (a : Tensor) (T : list Z)
    (weight bias : option Tensor) (eps eps' : pyfloat)
    (a_4d weight_4d bias_4d : CudnnTensorAttributes) (e : graph_entry)
    (x : exn) (s : state) :
  _transform_layer_norm_inputs a T weight bias
  = Ok (a_4d, weight_4d, bias_4d) ->
  fst (_make_cudnn_layer_norm_graph
         [ArgAttrs a_4d; ArgAttrs weight_4d; ArgAttrs bias_4d] s) = Ok e ->
  (forall pack workspace d,
      fst (cudnn_graph_execute acc (e_graph e) pack workspace d) = Raise x) ->
  let run := layer_norm_impl a T weight bias eps s in
  fst run = Raise x
  /\ cache_get [a_4d; weight_4d; bias_4d] (cache (snd run)) = Some e
  /\ List.length (executions (snd run)) = S (List.length (executions s))
  /\ builder_calls (snd (layer_norm_impl a T weight bias eps' (snd run)))
     = builder_calls (snd run).
Proof.
  intros Ht Hok Hexec run. subst run.
  rewrite graph_call_descriptors in Hok.
  pose proof (lru_cache_ok_get maxsize _ e s maxsize_pos Hok) as Hget.
  pose proof (lru_cache_frame maxsize [a_4d; weight_4d; bias_4d] s)
    as [Hex _].
  destruct (lru_cache maxsize make_graph [a_4d; weight_4d; bias_4d] s)
    as [r s1] eqn:Hg. cbn [fst snd] in *. subst r.
  pose proof (layer_norm_impl_run a T weight bias eps _ _ _ e s s1 Ht Hg)
    as Hrun. cbv zeta in Hrun. rewrite Hrun, Hexec.
  cbn [fst snd cache executions List.length].
  split; [reflexivity|]. split; [exact Hget|]. split; [now rewrite Hex|].
  match goal with
  | |- context [layer_norm_impl a T weight bias eps' ?st] => set (s2 := st)
  end.
  destruct (layer_norm_impl_state a T weight bias eps' _ _ _ s2 Ht)
    as (_ & Hcalls & _).
  rewrite Hcalls. apply (lru_cache_calls_hit maxsize _ e s2). exact Hget.
Qed.

(** X12. An execution call with weight or bias left at its default [None]
    raises AttributeError before anything else happens: no builder call,
    no execution, the state is the one it started from. *)
Theorem impl_missing_operand (a : Tensor) (T : list Z)
    (weight bias : option Tensor) (eps : pyfloat) (s : state) :
  weight = None \/ bias = None ->
  layer_norm_impl a T weight bias eps s = (Raise (AttributeError "dtype"), s).
Proof.
  intros Hnone. apply layer_norm_impl_transform_raise.
  destruct weight as [w|], bias as [b|], Hnone as [Hn|Hn];
    try discriminate; reflexivity.
Qed.

(** X13. A returning execution call has executed, once, the entry that is
    now in the store under the call's key, with the caller's operands
    bound to the input, scale and bias placeholders, a new CPU buffer of
    shape and strides (1, 1, 1, 1), float32, filled with the call's
    epsilon, bound to the epsilon placeholder, and the very tensor it
    returns bound to the output placeholder; the
    workspace is a uint8 tensor of [graph.get_workspace_size()] elements
    on the current CUDA device. *)
Theorem impl_executes_stored_entry (a : Tensor) (T : list Z)
    (weight bias : option Tensor) (eps : pyfloat) (y : Tensor)
    (s s' : state) :
  layer_norm_impl a T weight bias eps s = (Ok y, s') ->
  exists a_4d weight_4d bias_4d e workspace,
    _transform_layer_norm_inputs a T weight bias
    = Ok (a_4d, weight_4d, bias_4d)
    /\ cache_get [a_4d; weight_4d; bias_4d] (cache s') = Some e
    /\ executions s'
       = (e_graph e,
          [(e_input e, Some a); (e_scale e, weight); (e_bias e, bias);
           (e_epsilon e,
            Some (mk_tensor [1; 1; 1; 1] [1; 1; 1; 1] float32
                            (mk_device cpu None) (Full eps)));
           (e_Y e, Some y)],
          workspace) :: executions s
    /\ t_shape workspace = [workspace_size (e_graph e)]
    /\ t_dtype workspace = uint8
    /\ t_device workspace = mk_device cuda (Some (current_device s)).
Proof.
  intros Hrun.
  destruct (_transform_layer_norm_inputs a T weight bias)
    as [[[a_4d weight_4d] bias_4d]|x] eqn:Ht.
  2:{ rewrite (layer_norm_impl_transform_raise a T weight bias eps x s Ht)
        in Hrun. discriminate. }
  pose proof (lru_cache_frame maxsize [a_4d; weight_4d; bias_4d] s)
    as [Hex Hdev].
  pose proof (fun e => lru_cache_ok_get maxsize [a_4d; weight_4d; bias_4d]
                                        e s maxsize_pos) as Hget.
  destruct (lru_cache maxsize make_graph [a_4d; weight_4d; bias_4d] s)
    as [[e|x] s1] eqn:Hg; cbn [fst snd] in *.
  2:{ rewrite (layer_norm_impl_graph_raise a T weight bias eps _ _ _ x s s1
                 Ht Hg) in Hrun. discriminate. }
  specialize (Hget e eq_refl).
  rewrite (layer_norm_impl_run a T weight bias eps _ _ _ e s s1 Ht Hg)
    in Hrun.
  match type of Hrun with
  | (match ?r with _ => _ end, _) = _ => destruct r as [u|x]
  end; [|discriminate].
  inversion Hrun; subst y s'. clear Hrun.
  exists a_4d, weight_4d, bias_4d, e. eexists.
  cbn [cache executions]. rewrite Hex.
  split; [reflexivity|]. split; [exact Hget|]. split; [reflexivity|].
  cbn [t_shape t_dtype t_device]. unfold cuda_device. rewrite Hdev.
  repeat split.
Qed.

(** X14. Graphs are compiled per dtype and per device index: two
    execution calls with the same [normalized_shape] whose inputs differ
    in dtype or in device index canonicalise to different keys, and when
    neither key is in the store each call enters the builder. *)
Theorem graphs_are_per_dtype_and_device (a a' w w' b b' : Tensor)
    (T : list Z) (eps eps' : pyfloat) (s : state) :
  t_dtype a <> t_dtype a' \/ index (t_device a) <> index (t_device a') ->
  let run1 := layer_norm_impl a T (Some w) (Some b) eps s in
  let run2 := layer_norm_impl a' T (Some w') (Some b') eps' (snd run1) in
  exists a_4d weight_4d bias_4d a_4d' weight_4d' bias_4d',
    _transform_layer_norm_inputs a T (Some w) (Some b)
    = Ok (a_4d, weight_4d, bias_4d)
    /\ _transform_layer_norm_inputs a' T (Some w') (Some b')
       = Ok (a_4d', weight_4d', bias_4d')
    /\ key_eqb [a_4d; weight_4d; bias_4d] [a_4d'; weight_4d'; bias_4d']
       = false
    /\ (cache_get [a_4d; weight_4d; bias_4d] (cache s) = None ->
        cache_get [a_4d'; weight_4d'; bias_4d'] (cache s) = None ->
        builder_calls (snd run2)
        = [a_4d'; weight_4d'; bias_4d'] :: [a_4d; weight_4d; bias_4d]
            :: builder_calls s).
Proof.
  intros Hdiff run1 run2. subst run2 run1.
  destruct (transform_on_tensors a w b T)
    as (a_4d & weight_4d & bias_4d & Ht & Hd & Hi).
  destruct (transform_on_tensors a' w' b' T)
    as (a_4d' & weight_4d' & bias_4d' & Ht' & Hd' & Hi').
  exists a_4d, weight_4d, bias_4d, a_4d', weight_4d', bias_4d'.
  split; [exact Ht|]. split; [exact Ht'|].
  assert (Hne : [a_4d; weight_4d; bias_4d] <> [a_4d'; weight_4d'; bias_4d']).
  { intros [= -> _ _]. destruct Hdiff; congruence. }
  split; [now apply key_eqb_neq|]. intros H1 H2.
  destruct (layer_norm_impl_state a T (Some w) (Some b) eps _ _ _ s Ht)
    as (Hc1 & Hb1 & _).
  cbv zeta in Hc1, Hb1.
  match goal with
  | |- context [layer_norm_impl a' T (Some w') (Some b') eps' ?st] =>
      destruct (layer_norm_impl_state a' T (Some w') (Some b') eps'
                  _ _ _ st Ht') as (_ & Hb2 & _)
  end.
  cbv zeta in Hb2. rewrite Hb2, lru_cache_calls_miss.
  - rewrite Hb1, lru_cache_calls_miss; [reflexivity | exact H1].
  - rewrite Hc1. apply lru_cache_other_absent; [congruence | exact H2].
Qed.

(** ** Failures inside the graph function *)

(** X15. A dtype without a cuDNN counterpart never compiles.  When the
    conversion of the input's, the weight's or the bias's dtype raises,
    a call of the graph function on a key that is not stored raises as
    well; its body has been entered once, nothing is stored and nothing
    is executed.  The execution entry point then raises without executing
    anything, and where cuDNN is installed the checker answers false. *)
Theorem unsupported_dtype_never_compiles
    (a_4d weight_4d bias_4d : CudnnTensorAttributes) (s : state) :
  is_ok (torch_to_cudnn_dtype acc (dtype a_4d)) = false
  \/ is_ok (torch_to_cudnn_dtype acc (dtype weight_4d)) = false
  \/ is_ok (torch_to_cudnn_dtype acc (dtype bias_4d)) = false ->
  let k := [a_4d; weight_4d; bias_4d] in
  cache_get k (cache s) = None ->
  let call :=
    _make_cudnn_layer_norm_graph
      [ArgAttrs a_4d; ArgAttrs weight_4d; ArgAttrs bias_4d] s in
  is_ok (fst call) = false
  /\ builder_calls (snd call) = k :: builder_calls s
  /\ cache (snd call) = cache s
  /\ executions (snd call) = executions s
  /\ (forall t T weight bias eps,
         _transform_layer_norm_inputs t T weight bias
         = Ok (a_4d, weight_4d, bias_4d) ->
         is_ok (fst (layer_norm_impl t T weight bias eps s)) = false
         /\ cache (snd (layer_norm_impl t T weight bias eps s)) = cache s
         /\ executions (snd (layer_norm_impl t T weight bias eps s))
            = executions s)
  /\ (cudnn_available acc = true ->
      forall t T weight bias eps,
        _transform_layer_norm_inputs t T weight bias
        = Ok (a_4d, weight_4d, bias_4d) ->
        fst (layer_norm_checker t T weight bias eps s) = Ok false).
Proof.
  intros Hconv k Hmiss call. subst call.
  rewrite graph_call_descriptors. fold k.
  pose proof (lru_cache_frame maxsize k s) as [Hexec _].
  pose proof (lru_cache_calls_miss maxsize a_4d weight_4d bias_4d s Hmiss)
    as Hcalls. fold k in Hcalls.
  destruct (lru_cache_cases maxsize k s)
    as [(v & H & _) | [(v & s' & _ & Em & _ & _) | (x & s' & _ & _ & Hc & E)]].
  - congruence.
  - exfalso.
    destruct (make_graph_specialised k v s s' Em)
      as (a0 & w0 & b0 & ta & tw & tb & Hk & Ha & Hw & Hb & _).
    injection Hk as <- <- <-. rewrite Ha, Hw, Hb in Hconv.
    cbn in Hconv. intuition discriminate.
  - rewrite E in *. cbn [fst snd is_ok] in *.
    split; [reflexivity|]. split; [exact Hcalls|]. split; [exact Hc|].
    split; [exact Hexec|]. split.
    + intros t T weight bias eps Ht.
      rewrite (layer_norm_impl_graph_raise t T weight bias eps _ _ _ x s s'
                 Ht E).
      cbn [fst snd is_ok]. auto.
    + intros Hav t T weight bias eps Ht.
      rewrite (layer_norm_checker_run t T weight bias eps _ _ _ s Hav Ht).
      cbv zeta. fold k. rewrite E. reflexivity.
Qed.

(** X16. The graph function takes exactly three descriptors.  From a
    store whose entries match their keys, a call with any other number of
    descriptors raises TypeError and changes nothing: the builder body is
    not entered and nothing is stored. *)
Theorem wrong_arity_raises (k : key) (s : state) :
  cache_built s ->
  List.length k <> 3%nat ->
  exists msg,
    _make_cudnn_layer_norm_graph (map ArgAttrs k) s = (Raise (TypeError msg), s).
Proof.
  intros Hb Hlen. rewrite graph_call_key.
  assert (Hmiss : cache_get k (cache s) = None).
  { destruct (cache_get k (cache s)) as [v|] eqn:H; [|reflexivity].
    apply cache_get_some in H. unfold cache_built in Hb.
    rewrite Forall_forall in Hb.
    destruct (Hb (k, v) H) as (a0 & w0 & b0 & Hk & _). cbn in Hk.
    subst k. now contradiction Hlen. }
  rewrite (lru_cache_miss maxsize k s Hmiss).
  destruct k as [|a0 [|w0 [|b0 [|x0 k]]]]; cbn; eauto.
  now contradiction Hlen.
Qed.

(** ** Interleaved callers and their entries *)

Lemma cache_store_built (k : key) (v : graph_entry)
    (c : list (key * graph_entry)) :
  Forall (fun ke => built_for (fst ke) (snd ke)) c ->
  built_for k v ->
  Forall (fun ke => built_for (fst ke) (snd ke)) (cache_store maxsize k v c).
Proof.
  intros Hall Hb. unfold cache_store.
  destruct (cache_get k c); [exact Hall|].
  apply Forall_firstn_keep. constructor; assumption.
Qed.

Lemma thread_step_built (k : key) (t : thread) (s : state) :
  cache_built s -> holds_entry_for k t ->
  cache_built (snd (thread_step t s))
  /\ holds_entry_for k (fst (thread_step t s)).
Proof.
  unfold cache_built. intros Hall Hk.
  destruct t as [k'|k'|r]; cbn [thread_step holds_entry_for] in *.
  - subst k'. unfold lru_lookup.
    destruct (cache_get k (cache s)) as [v|] eqn:H; unfold set_cache;
      cbn [fst snd cache holds_entry_for]; [|auto].
    split; [now apply cache_built_touch|].
    rewrite Forall_forall in Hall. apply (Hall (k, v)).
    now apply cache_get_some.
  - subst k'. unfold bind.
    pose proof (make_graph_cache k s) as Hc.
    pose proof (fun v s1 => make_graph_built k v s s1) as Hb.
    destruct (make_graph k s) as [[v|x] s1]; cbn [fst snd] in *;
      unfold lru_store, set_cache; cbn [fst snd cache holds_entry_for].
    + specialize (Hb v s1 eq_refl). rewrite Hc.
      split; [now apply cache_store_built | exact Hb].
    + rewrite Hc. auto.
  - cbn [fst snd]. auto.
Qed.

Lemma Forall2_set_nth {A B} (P : A -> B -> Prop) (xs : list A)
    (ys : list B) (i : nat) (y y' : B) :
  Forall2 P xs ys -> nth_error ys i = Some y ->
  (forall x, P x y -> P x y') ->
  Forall2 P xs (set_nth i y' ys).
Proof.
  intros H. revert i. induction H as [|x0 y0 xs ys H0 H IH]; intros [|i];
    cbn [nth_error set_nth]; try discriminate.
  - intros [= ->] Hstep. constructor; auto.
  - intros Hi Hstep. constructor; auto.
Qed.

Lemma Forall2_nth_error {A B} (P : A -> B -> Prop) (xs : list A)
    (ys : list B) (i : nat) (y : B) :
  Forall2 P xs ys -> nth_error ys i = Some y -> exists x, P x y.
Proof.
  intros H. revert i. induction H as [|x0 y0 xs ys H0 H IH]; intros [|i];
    cbn [nth_error]; try discriminate.
  - intros [= ->]. eauto.
  - apply IH.
Qed.

Lemma run_schedule_built (sched : list nat) (ks : list key)
    (pool : list thread) (s : state) :
  cache_built s -> Forall2 holds_entry_for ks pool ->
  cache_built (snd (run_schedule sched pool s))
  /\ Forall2 holds_entry_for ks (fst (run_schedule sched pool s)).
Proof.
  revert pool s. induction sched as [|i sched IH]; intros pool s Hb Hpool;
    [cbn; auto|].
  cbn [run_schedule]. destruct (nth_error pool i) as [t|] eqn:Hi; [|auto].
  pose proof (fun k => thread_step_built k t s Hb) as Hstep.
  destruct (thread_step t s) as [t' s1]. cbn [fst snd] in Hstep.
  destruct (Forall2_nth_error _ ks pool i t Hpool Hi) as [k0 Hk0].
  apply IH.
  - now apply (Hstep k0).
  - apply (Forall2_set_nth _ ks pool i t t' Hpool Hi).
    intros k Hk. now apply (Hstep k).
Qed.

(** X17. However the steps of concurrent callers interleave, no caller is
    handed a graph compiled for another key: from a store whose entries
    match their keys, every caller that has returned normally holds an
    entry specialised to the key it called with, and the store still
    matches its keys. *)
Theorem callers_get_their_own_graph (sched : list nat) (ks : list key)
    (s : state) :
  cache_built s ->
  cache_built (snd (run_schedule sched (map Calling ks) s))
  /\ Forall2 holds_entry_for ks
             (fst (run_schedule sched (map Calling ks) s)).
Proof.
  intros Hb. apply run_schedule_built; [exact Hb|].
  induction ks as [|k ks IH]; constructor; [reflexivity | exact IH].
Qed.

End Executor.

(** * The executor on concrete calls *)

Notation "'start'" := (initial_state reference_accelerator 0%nat 0).

Lemma transform_layer_norm_inputs_canonical_witness :
  _transform_layer_norm_inputs example_input [64]
                               (Some example_weight) (Some example_bias)
  = Ok (example_a_4d, example_weight_4d, example_bias_4d)
  /\ _transform_layer_norm_inputs other_input [64]
                                  (Some other_weight) (Some other_bias)
     = _transform_layer_norm_inputs example_input [64]
                                    (Some example_weight) (Some example_bias).
Proof.
  destruct (transform_layer_norm_inputs_canonical
              example_input example_weight example_bias [8; 16] [64])
    as (H1 & _ & H3 & _).
  - discriminate.
  - reflexivity.
  - repeat constructor; discriminate.
  - reflexivity.
  - reflexivity.
  - split; [exact H1 | apply H3; reflexivity].
Defined.


(** Capacity pressure, run on the reference accelerator: 1024 keys fill the
    store, the first of them is hit again, and one more key arrives.  The
    store still has 1024 entries, the key that was hit is kept, and the
    second key, the oldest one not used since, is the one given up. *)
Example eviction_at_capacity :
  let out :=
    call_all reference_accelerator
             (batch_keys 1024 ++ [batch_key 1; batch_key 1025]) start in
  (List.length (cache _ (snd out)),
   existsb (key_eqb (batch_key 1)) (cache_keys (cache _ (snd out))),
   existsb (key_eqb (batch_key 2)) (cache_keys (cache _ (snd out))),
   existsb (key_eqb (batch_key 1025)) (cache_keys (cache _ (snd out))),
   List.length (builder_calls _ (snd out)))
  = (1024%nat, true, false, true, 1025%nat).
Proof. vm_compute. reflexivity. Qed.


(** The claim of C4 fails for an input on the second GPU while the first is
    the current device: the output is on the first. *)
Lemma output_device_counterexample :
  ~ (forall y s',
        layer_norm_impl reference_accelerator cuda1_input [64]
                        (Some cuda1_weight) (Some cuda1_bias) eps_1e_5 start
        = (Ok y, s') ->
        t_shape y = t_shape cuda1_input
        /\ t_dtype y = t_dtype cuda1_input
        /\ t_device y = t_device cuda1_input).
Proof.
  intros H. destruct (H _ _ eq_refl) as (_ & _ & Hd). discriminate Hd.
Qed.

Lemma layer_norm_output_tensor_witness :
  exists y s',
    layer_norm_impl reference_accelerator cuda1_input [64]
                    (Some cuda1_weight) (Some cuda1_bias) eps_1e_5 start
    = (Ok y, s')
    /\ t_shape y = [8; 16; 64] /\ t_dtype y = float32 /\ t_device y = cuda0.
Proof.
  destruct (layer_norm_output_tensor reference_accelerator cuda1_input [64]
              (Some cuda1_weight) (Some cuda1_bias) eps_1e_5 start)
    as [H1 H2].
  destruct (H2 _ _ _ _ _ eq_refl eq_refl (fun _ _ => eq_refl))
    as (y & s' & Hrun).
  exists y, s'. split; [exact Hrun|].
  destruct (H1 y s' Hrun) as (Hs & Hd & Hdev & _).
  rewrite Hs, Hd, Hdev. repeat split; reflexivity.
Defined.

(** The claim of C5 fails for an input of shape (4, 0) normalised over its
    last dimension: the canonicaliser returns, the builder is entered, and
    the error is the accelerator's; with a library that takes zero-sized
    graphs the call returns and leaves a new entry in the store. *)
Lemma degenerate_shape_counterexample :
  let run :=
    layer_norm_impl reference_accelerator empty_input [0]
                    (Some empty_weight) (Some empty_bias) eps_1e_5 start in
  let lenient_run :=
    layer_norm_impl lenient_accelerator empty_input [0]
                    (Some empty_weight) (Some empty_bias) eps_1e_5
                    (initial_state lenient_accelerator 0%nat 0) in
  _transform_layer_norm_inputs empty_input [0]
                               (Some empty_weight) (Some empty_bias)
  = Ok (empty_a_4d, empty_weight_4d, empty_bias_4d)
  /\ fst run = Raise (CudnnError "graph not supported")
  /\ builder_calls _ (snd run)
     = [[empty_a_4d; empty_weight_4d; empty_bias_4d]]
  /\ is_ok (fst lenient_run) = true
  /\ cache_keys (cache _ (snd lenient_run))
     = [[empty_a_4d; empty_weight_4d; empty_bias_4d]].
Proof. repeat split. Qed.

Lemma nonpositive_dimension_reaches_builder_witness :
  (let run :=
     layer_norm_impl reference_accelerator empty_input [0]
                     (Some empty_weight) (Some empty_bias) eps_1e_5 start in
   builder_calls _ (snd run) = [[empty_a_4d; empty_weight_4d; empty_bias_4d]]
   /\ fst run = Raise (CudnnError "graph not supported")
   /\ cache _ (snd run) = [])
  /\ (let run :=
        layer_norm_impl reference_accelerator empty_batch_input [64]
                        (Some example_weight) (Some example_bias) eps_1e_5
                        start in
      builder_calls _ (snd run)
      = [[mk_attrs [0; 64; 1; 1] [64; 1; 1; 1] float32 (Some 0);
          example_weight_4d; example_bias_4d]]
      /\ fst run = Raise (CudnnError "graph not supported")
      /\ cache _ (snd run) = []).
Proof.
  split.
  - destruct (nonpositive_dimension_reaches_builder reference_accelerator
                empty_input empty_weight empty_bias [0] eps_1e_5 start)
      as (_ & _ & _ & H).
    + repeat constructor; discriminate.
    + repeat constructor; discriminate.
    + right. discriminate.
    + destruct (H eq_refl) as (Hcalls & Hraise & _).
      destruct (Hraise _ eq_refl) as [Hr Hc].
      split; [exact Hcalls | split; [exact Hr | exact Hc]].
  - destruct (nonpositive_dimension_reaches_builder reference_accelerator
                empty_batch_input example_weight example_bias [64] eps_1e_5
                start)
      as (_ & _ & _ & H).
    + repeat constructor; discriminate.
    + repeat constructor; discriminate.
    + left. discriminate.
    + destruct (H eq_refl) as (Hcalls & Hraise & _).
      destruct (Hraise _ eq_refl) as [Hr Hc].
      split; [exact Hcalls | split; [exact Hr | exact Hc]].
Defined.

Lemma layer_norm_checker_outcomes_witness :
  layer_norm_checker no_cudnn example_input [64]
                     (Some example_weight) (Some example_bias) eps_1e_5
                     (initial_state no_cudnn 0%nat 0)
  = (Raise (NameError "cudnn"), initial_state no_cudnn 0%nat 0)
  /\ layer_norm_checker reference_accelerator example_input [64]
                        None None eps_1e_5 start
     = (Raise (AttributeError "dtype"), start)
  /\ fst (layer_norm_checker reference_accelerator example_input [64]
                             (Some example_weight) (Some example_bias)
                             eps_1e_5 start)
     = Ok true.
Proof.
  split; [|split].
  - destruct (layer_norm_checker_outcomes no_cudnn example_input [64]
                (Some example_weight) (Some example_bias) eps_1e_5
                (initial_state no_cudnn 0%nat 0)) as (H & _ & _).
    exact (H eq_refl).
  - destruct (layer_norm_checker_outcomes reference_accelerator
                example_input [64] None None eps_1e_5 start) as (_ & H & _).
    exact (H eq_refl (or_introl eq_refl)).
  - destruct (layer_norm_checker_outcomes reference_accelerator
                example_input [64] (Some example_weight) (Some example_bias)
                eps_1e_5 start) as (_ & _ & H).
    rewrite (H eq_refl _ _ _ eq_refl). reflexivity.
Defined.

Lemma failed_compilation_not_cached_witness :
  let call :=
    _make_cudnn_layer_norm_graph reference_accelerator
      [ArgAttrs empty_a_4d; ArgAttrs empty_weight_4d; ArgAttrs empty_bias_4d] in
  fst (call start) = Raise (CudnnError "graph not supported")
  /\ cache _ (snd (call start)) = []
  /\ List.length (builder_calls _ (snd (call (snd (call start))))) = 2%nat.
Proof.
  destruct (failed_compilation_not_cached reference_accelerator
              empty_a_4d empty_weight_4d empty_bias_4d
              (CudnnError "graph not supported") start eq_refl eq_refl)
    as (H1 & _ & _ & H4 & _).
  split; [reflexivity | split; [exact H1 | rewrite H4; reflexivity]].
Defined.

Lemma epsilon_not_in_cache_key_witness :
  let run1 :=
    layer_norm_impl reference_accelerator example_input [64]
                    (Some example_weight) (Some example_bias) eps_1e_5 start in
  let run2 :=
    layer_norm_impl reference_accelerator other_input [64]
                    (Some other_weight) (Some other_bias) eps_1e_6
                    (snd run1) in
  builder_calls _ (snd run2) = [example_key]
  /\ map (fun x => graph_id (fst (fst x))) (executions _ (snd run2))
     = [0%nat; 0%nat].
Proof.
  destruct (epsilon_not_in_cache_key reference_accelerator
              example_input other_input [64] [64]
              (Some example_weight) (Some example_bias)
              (Some other_weight) (Some other_bias) eps_1e_5 eps_1e_6
              _ _ _ _ start eq_refl eq_refl eq_refl eq_refl)
    as (H1 & H2 & _).
  split; [rewrite H2; exact H1 | reflexivity].
Defined.

Lemma wrapper_tensor_argument_witness :
  _make_cudnn_layer_norm_graph reference_accelerator
    [ArgTensor example_input; ArgAttrs example_weight_4d;
     ArgAttrs example_bias_4d] start
  = (Raise (AttributeError "device_index"), start).
Proof.
  destruct (wrapper_tensor_argument reference_accelerator
              (lru_cache reference_accelerator maxsize
                         (make_graph reference_accelerator))
              [ArgTensor example_input; ArgAttrs example_weight_4d;
               ArgAttrs example_bias_4d] start) as [H _].
  apply H. exists example_input. left; reflexivity.
Defined.

(** The claim of C8 fails for two callers with the same key whose lookups
    both come before either build: the builder runs twice and the callers
    get two different graphs. *)
Lemma single_flight_counterexample :
  let out :=
    run_schedule reference_accelerator [0; 1; 0; 1]%nat
                 [Calling example_key; Calling example_key] start in
  builder_calls_of reference_accelerator example_key (snd out) = 2%nat
  /\ exists e0 e1,
       fst out = [Returned (Ok e0); Returned (Ok e1)]
       /\ graph_id (e_graph e0) = 0%nat /\ graph_id (e_graph e1) = 1%nat.
Proof.
  split; [reflexivity|]. do 2 eexists. split; [reflexivity|]. split; reflexivity.
Qed.

Lemma concurrent_calls_not_single_flight_witness :
  let out :=
    run_schedule reference_accelerator [0; 1; 0; 1]%nat
                 [Calling example_key; Calling example_key] start in
  builder_calls _ (snd out) = [example_key; example_key]
  /\ List.length (cache _ (snd out)) = 1%nat
  /\ List.length
       (builder_calls _
          (snd (run_schedule reference_accelerator
                             (sequential_schedule 0 2)
                             [Calling example_key; Calling example_key]
                             start))) = 1%nat.
Proof.
  destruct (concurrent_calls_not_single_flight reference_accelerator start)
    as (_ & Hseq & Hrace).
  destruct (Hrace example_a_4d example_weight_4d example_bias_4d 2%nat
                 [0; 1]%nat [0; 1]%nat eq_refl) as [H _].
  - repeat constructor; simpl; intuition congruence.
  - intros i. simpl. lia.
  - repeat constructor; simpl; intuition congruence.
  - intros i. simpl. lia.
  - split; [exact H|]. split; [reflexivity|].
    pose proof (Hseq [example_key; example_key]) as Hs.
    cbn [List.length map] in Hs. rewrite Hs. reflexivity.
Defined.

(** * The further properties on concrete calls *)

Notation "'warm'" :=
  (snd (_make_cudnn_layer_norm_graph reference_accelerator
          [ArgAttrs example_a_4d; ArgAttrs example_weight_4d;
           ArgAttrs example_bias_4d] start)).

Lemma canonical_layout_keeps_element_count_witness :
  exists a_4d weight_4d bias_4d,
    _transform_layer_norm_inputs example_input [64]
                                 (Some example_weight) (Some example_bias)
    = Ok (a_4d, weight_4d, bias_4d)
    /\ extent_product (size a_4d) = extent_product [8; 16; 64]
    /\ extent_product (size weight_4d) = extent_product [64]
    /\ extent_product (size bias_4d) = extent_product [64].
Proof.
  apply (canonical_layout_keeps_element_count
           example_input example_weight example_bias [8; 16] [64]).
  - discriminate.
  - reflexivity.
  - repeat constructor; discriminate.
  - reflexivity.
  - reflexivity.
Defined.

Lemma transform_batch_extent_witness :
  exists a_4d weight_4d bias_4d,
    _transform_layer_norm_inputs example_weight [8; 64]
                                 (Some example_weight) (Some example_bias)
    = Ok (a_4d, weight_4d, bias_4d)
    /\ size a_4d = [1; 512; 1; 1].
Proof.
  destruct (transform_batch_extent example_weight example_weight example_bias
              [8; 64]) as (a_4d & weight_4d & bias_4d & Ht & _ & Hlong).
  - repeat constructor; discriminate.
  - repeat constructor; discriminate.
  - discriminate.
  - exists a_4d, weight_4d, bias_4d. split; [exact Ht|].
    apply Hlong. apply Nat.leb_le. reflexivity.
Defined.

Lemma transform_extents_wrap_witness :
  exists a_4d weight_4d bias_4d,
    _transform_layer_norm_inputs wide_input [4294967296; 4294967296]
                                 (Some example_weight) (Some example_bias)
    = Ok (a_4d, weight_4d, bias_4d)
    /\ size a_4d = [4; 0; 1; 1].
Proof.
  destruct (transform_extents_wrap wide_input example_weight example_bias
              [4294967296; 4294967296])
    as (a_4d & weight_4d & bias_4d & N & C & Ht & Hsize & _ & _ & _
        & HC & HN & HCmod & HNmod).
  - repeat constructor; discriminate.
  - repeat constructor; discriminate.
  - exists a_4d, weight_4d, bias_4d. split; [exact Ht|].
    rewrite Hsize.
    change (extent_product [4294967296; 4294967296])
      with 18446744073709551616 in HCmod.
    change (extent_product
              (slice_to (t_shape wide_input)
                        (- Z.of_nat (List.length [4294967296; 4294967296]))))
      with 4 in HNmod.
    change (2 ^ 63) with 9223372036854775808 in HC, HN.
    change (2 ^ 64) with 18446744073709551616 in HCmod, HNmod.
    apply Z.mod_divide in HCmod; [|discriminate].
    apply Z.mod_divide in HNmod; [|discriminate].
    destruct HCmod as [c Hc], HNmod as [n Hn].
    assert (C = 0) as -> by lia. assert (N = 4) as -> by lia.
    reflexivity.
Defined.

Lemma transform_raises_iff_operand_missing_witness :
  _transform_layer_norm_inputs example_input [64] None (Some example_bias)
  = Raise (AttributeError "dtype").
Proof.
  destruct (transform_raises_iff_operand_missing
              example_input [64] None (Some example_bias)) as [_ H].
  exact (H eq_refl).
Defined.

Lemma graph_hit_only_reorders_witness :
  builder_calls _
    (snd (_make_cudnn_layer_norm_graph reference_accelerator
            (map ArgAttrs example_key) warm))
  = [example_key].
Proof.
  pose proof (fun v =>
                graph_hit_only_reorders reference_accelerator example_key v
                                        warm) as Hhit.
  edestruct Hhit as (_ & H & _); [reflexivity | exact H].
Defined.

Lemma stored_entries_never_replaced_witness :
  cache_get example_key
    (cache _ (snd (_make_cudnn_layer_norm_graph reference_accelerator
                     (map ArgAttrs (batch_key 2)) warm)))
  = cache_get example_key (cache _ warm).
Proof.
  pose proof (fun e' =>
                stored_entries_never_replaced reference_accelerator
                  (batch_key 2) example_key e' warm) as Hkeep.
  edestruct Hkeep as [H _].
  edestruct H as [_ Hroom]; [reflexivity|].
  rewrite Hroom; [reflexivity|]. apply Nat.ltb_lt. reflexivity.
Defined.

Lemma stored_entries_match_their_keys_witness :
  exists e,
    fst (_make_cudnn_layer_norm_graph reference_accelerator
           (map ArgAttrs example_key) start) = Ok e
    /\ specialised_to reference_accelerator example_key e.
Proof.
  destruct (stored_entries_match_their_keys reference_accelerator start)
    as [Hinit Hkeep].
  destruct (Hkeep (Hinit 0%nat 0)) as (Hgraph & _ & _).
  destruct (Hgraph example_key) as [_ Hb].
  eexists. split; [reflexivity|]. apply Hb. reflexivity.
Defined.

Lemma checker_dry_run_witness :
  exists answer,
    fst (layer_norm_checker reference_accelerator example_input [64]
                            (Some example_weight) (Some example_bias)
                            eps_1e_5 start) = Ok answer
    /\ executions _
         (snd (layer_norm_checker reference_accelerator example_input [64]
                                  (Some example_weight) (Some example_bias)
                                  eps_1e_5 start)) = [].
Proof.
  destruct (checker_dry_run reference_accelerator
              example_input example_weight example_bias [64] eps_1e_5 start
              eq_refl)
    as (a_4d & weight_4d & bias_4d & answer & _ & H1 & H2 & _).
  exists answer. split; [exact H1 | exact H2].
Defined.

Lemma checker_true_then_impl_hits_witness :
  let s1 :=
    snd (layer_norm_checker reference_accelerator example_input [64]
                            (Some example_weight) (Some example_bias)
                            eps_1e_5 start) in
  builder_calls _
    (snd (layer_norm_impl reference_accelerator example_input [64]
                          (Some example_weight) (Some example_bias)
                          eps_1e_6 s1))
  = builder_calls _ s1.
Proof.
  destruct (checker_true_then_impl_hits reference_accelerator
              example_input [64] (Some example_weight) (Some example_bias)
              eps_1e_5 eps_1e_6 start eq_refl)
    as (a_4d & weight_4d & bias_4d & e & pack & workspace & _ & _ & H & _).
  exact H.
Defined.

Lemma execution_failure_keeps_entry_witness :
  let run :=
    layer_norm_impl faulty_accelerator example_input [64]
                    (Some example_weight) (Some example_bias) eps_1e_5
                    (initial_state faulty_accelerator 0%nat 0) in
  fst run = Raise (CudnnError "execution failed")
  /\ cache_keys (cache _ (snd run)) = [example_key].
Proof.
  destruct (execution_failure_keeps_entry faulty_accelerator
              example_input [64] (Some example_weight) (Some example_bias)
              eps_1e_5 eps_1e_5 _ _ _ _ (CudnnError "execution failed")
              (initial_state faulty_accelerator 0%nat 0)
              eq_refl eq_refl (fun _ _ _ => eq_refl)) as (H & _).
  split; [exact H | reflexivity].
Defined.

Lemma impl_missing_operand_witness :
  layer_norm_impl reference_accelerator example_input [64] None None
                  eps_1e_5 start
  = (Raise (AttributeError "dtype"), start).
Proof.
  apply impl_missing_operand. left. reflexivity.
Defined.

Lemma impl_executes_stored_entry_witness :
  exists y s',
    layer_norm_impl reference_accelerator example_input [64]
                    (Some example_weight) (Some example_bias) eps_1e_5 start
    = (Ok y, s')
    /\ List.length (executions _ s') = 1%nat.
Proof.
  do 2 eexists. split; [exact eq_refl|].
  destruct (impl_executes_stored_entry reference_accelerator
              example_input [64] (Some example_weight) (Some example_bias)
              eps_1e_5 _ start _ eq_refl)
    as (a_4d & weight_4d & bias_4d & e & workspace & _ & _ & Hex & _).
  rewrite Hex. reflexivity.
Defined.

Lemma graphs_are_per_dtype_and_device_witness :
  let run1 :=
    layer_norm_impl reference_accelerator example_input [64]
                    (Some example_weight) (Some example_bias) eps_1e_5 start in
  let run2 :=
    layer_norm_impl reference_accelerator cuda1_input [64]
                    (Some cuda1_weight) (Some cuda1_bias) eps_1e_5
                    (snd run1) in
  List.length (builder_calls _ (snd run2)) = 2%nat.
Proof.
  destruct (graphs_are_per_dtype_and_device reference_accelerator
              example_input cuda1_input example_weight cuda1_weight
              example_bias cuda1_bias [64] eps_1e_5 eps_1e_5 start)
    as (a_4d & weight_4d & bias_4d & a_4d' & weight_4d' & bias_4d'
        & _ & _ & _ & H).
  - right. discriminate.
  - cbv zeta. rewrite (H eq_refl eq_refl). reflexivity.
Defined.

Lemma unsupported_dtype_never_compiles_witness :
  let s := initial_state float_only_accelerator 0%nat 0 in
  let call :=
    _make_cudnn_layer_norm_graph float_only_accelerator
      [ArgAttrs example_a_4d; ArgAttrs example_weight_4d;
       ArgAttrs (mk_attrs [1; 64; 1; 1] [64; 1; 1; 1] int32 (Some 0))] s in
  is_ok (fst call) = false
  /\ cache _ (snd call) = []
  /\ fst (layer_norm_checker float_only_accelerator example_input [64]
            (Some example_weight)
            (Some (mk_tensor [64] [1] int32 cuda0 (Buffer 3))) eps_1e_5 s)
     = Ok false.
Proof.
  destruct (unsupported_dtype_never_compiles float_only_accelerator
              example_a_4d example_weight_4d
              (mk_attrs [1; 64; 1; 1] [64; 1; 1; 1] int32 (Some 0))
              (initial_state float_only_accelerator 0%nat 0))
    as (Hraise & _ & Hcache & _ & _ & Hcheck).
  - right. right. reflexivity.
  - reflexivity.
  - cbv zeta. split; [exact Hraise|]. split; [exact Hcache|].
    apply (Hcheck eq_refl). reflexivity.
Defined.

Lemma wrong_arity_raises_witness :
  exists msg,
    _make_cudnn_layer_norm_graph reference_accelerator
      (map ArgAttrs [example_a_4d; example_weight_4d]) start
    = (Raise (TypeError msg), start).
Proof.
  apply wrong_arity_raises.
  - constructor.
  - discriminate.
Defined.

Lemma callers_get_their_own_graph_witness :
  Forall2 (holds_entry_for reference_accelerator)
          [example_key; batch_key 2; example_key]
          (fst (run_schedule reference_accelerator [0; 1; 2; 2; 0; 1]%nat
                             (map Calling
                                  [example_key; batch_key 2; example_key])
                             start)).
Proof.
  apply (callers_get_their_own_graph reference_accelerator
           [0; 1; 2; 2; 0; 1]%nat [example_key; batch_key 2; example_key]
           start).
  constructor.
Defined.
